(** * insiderscope: technical analysis and market sentiment

    A shallow embedding of [src/lib/services/technical-analysis.ts] and of
    [src/lib/cache.ts], and the properties of the sentiment engine stated in
    the specification.

    Further properties of the code follow them: of the cache on its own, of
    [getAllSentiments] and of the route [GET /api/sentiment]
    ([src/app/api/sentiment/route.ts]), of the indicator calculators, and of
    the signals, patterns and classification of an evaluation.

    Numbers.  A TypeScript [number] is embedded as [JS.number]: the IEEE
    special values [NaN], [Infinity] and [-Infinity] with their arithmetic
    and their comparisons, and exact rationals for the finite values.  The
    rounding of finite results to 53 bits, overflow and the sign of zero are
    not part of the model, and a finite result is kept in lowest terms
    ([Qred]) so that the functions can be run; [undefined], which the code only ever reads in a
    numeric position (an array read out of range), is its numeric conversion
    [NaN].

    Host.  [Math.sqrt], [Number.prototype.toFixed], [Date.now] and the
    network fetch belong to the host: the first two are variables of the
    section that holds the engine, a clock reading and the fetched candle
    series are arguments of the functions that use them. *)

From stdpp Require Import gmap strings.
From Stdlib Require Import String Ascii DecimalString.
From Stdlib Require Import QArith Qabs Qround Qminmax Lqa ZArith Lia List.
Import ListNotations.

Local Open Scope Q_scope.

(* ================================================================== *)
(** ** JavaScript numbers and arrays *)
(* ================================================================== *)

Module JS.

Inductive number : Type :=
| NaN
| NegInfinity
| Num (q : Q)
| Infinity.

Definition Qlt_bool (a b : Q) : bool := negb (Qle_bool b a).

Definition is_finite (x : number) : Prop :=
  match x with Num _ => True | _ => False end.

(** Equality of numbers up to the representation of a rational. *)
Definition same (x y : number) : Prop :=
  match x, y with
  | NaN, NaN | NegInfinity, NegInfinity | Infinity, Infinity => True
  | Num a, Num b => a == b
  | _, _ => False
  end.

(** [-x] *)
Definition neg (x : number) : number :=
  match x with
  | NaN => NaN
  | NegInfinity => Infinity
  | Num q => Num (- q)
  | Infinity => NegInfinity
  end.

(** [x + y] *)
Definition add (x y : number) : number :=
  match x, y with
  | NaN, _ | _, NaN => NaN
  | Infinity, NegInfinity | NegInfinity, Infinity => NaN
  | Infinity, _ | _, Infinity => Infinity
  | NegInfinity, _ | _, NegInfinity => NegInfinity
  | Num a, Num b => Num (Qred (a + b))
  end.

(** [x - y] *)
Definition sub (x y : number) : number := add x (neg y).

(** The infinity whose sign is that of the rational [a]; [NaN] at zero. *)
Definition signed_inf (a : Q) : number :=
  match a ?= 0 with
  | Eq => NaN
  | Gt => Infinity
  | Lt => NegInfinity
  end.

(** [x * y] *)
Definition mul (x y : number) : number :=
  match x, y with
  | NaN, _ | _, NaN => NaN
  | Num a, Num b => Num (Qred (a * b))
  | Num a, Infinity | Infinity, Num a => signed_inf a
  | Num a, NegInfinity | NegInfinity, Num a => signed_inf (- a)
  | Infinity, Infinity | NegInfinity, NegInfinity => Infinity
  | Infinity, NegInfinity | NegInfinity, Infinity => NegInfinity
  end.

(** [x / y]; a zero divisor is taken as [+0]. *)
Definition div (x y : number) : number :=
  match x, y with
  | NaN, _ | _, NaN => NaN
  | Num a, Num b =>
      match b ?= 0 with
      | Eq => signed_inf a
      | _ => Num (Qred (a / b))
      end
  | Num _, (Infinity | NegInfinity) => Num 0
  | Infinity, Num b => if Qlt_bool b 0 then NegInfinity else Infinity
  | NegInfinity, Num b => if Qlt_bool b 0 then Infinity else NegInfinity
  | (Infinity | NegInfinity), (Infinity | NegInfinity) => NaN
  end.

(** [x < y] *)
Definition lt (x y : number) : bool :=
  match x, y with
  | NaN, _ | _, NaN => false
  | NegInfinity, NegInfinity => false
  | NegInfinity, _ => true
  | Num _, NegInfinity => false
  | Num a, Num b => Qlt_bool a b
  | Num _, Infinity => true
  | Infinity, _ => false
  end.

(** [x <= y] *)
Definition le (x y : number) : bool :=
  match x, y with
  | NaN, _ | _, NaN => false
  | NegInfinity, _ => true
  | Num _, NegInfinity => false
  | Num a, Num b => Qle_bool a b
  | Num _, Infinity => true
  | Infinity, Infinity => true
  | Infinity, _ => false
  end.

(** [x > y] and [x >= y] *)
Definition gt (x y : number) : bool := lt y x.
Definition ge (x y : number) : bool := le y x.

(** [x === y] *)
Definition strict_eq (x y : number) : bool :=
  match x, y with
  | Num a, Num b => Qeq_bool a b
  | Infinity, Infinity | NegInfinity, NegInfinity => true
  | _, _ => false
  end.

(** Truthiness of a number: [NaN] and zero are falsy. *)
Definition truthy (x : number) : bool :=
  match x with
  | NaN => false
  | Num q => negb (Qeq_bool q 0)
  | _ => true
  end.

(** [x || y] *)
Definition or (x y : number) : number := if truthy x then x else y.

(** [Math.abs(x)] *)
Definition Math_abs (x : number) : number :=
  match x with
  | NaN => NaN
  | Num q => Num (Qabs q)
  | _ => Infinity
  end.

(** [Math.max(...xs)] and [Math.min(...xs)]: [NaN] as soon as an argument is,
    [-Infinity] and [Infinity] without arguments. *)
Definition max2 (x y : number) : number :=
  match x, y with
  | NaN, _ | _, NaN => NaN
  | _, _ => if lt x y then y else x
  end.

Definition min2 (x y : number) : number :=
  match x, y with
  | NaN, _ | _, NaN => NaN
  | _, _ => if lt y x then y else x
  end.

Definition Math_max (xs : list number) : number := fold_left max2 xs NegInfinity.
Definition Math_min (xs : list number) : number := fold_left min2 xs Infinity.

(** [Math.pow(x, 2)] *)
Definition Math_pow2 (x : number) : number := mul x x.

(** [xs.length] *)
Definition len {A} (xs : list A) : Z := Z.of_nat (length xs).

(** [xs[i]] on an array of numbers, for an integer index. *)
Definition get (xs : list number) (i : Z) : number :=
  if (i <? 0)%Z then NaN else nth (Z.to_nat i) xs NaN.

(** A relative index of [slice] brought into [0 .. length]. *)
Definition clamp_index (n i : Z) : Z :=
  if (i <? 0)%Z then Z.max (n + i) 0 else Z.min i n.

(** [xs.slice(start, end)]; [None] for an omitted [end]. *)
Definition slice {A} (xs : list A) (start : Z) (end_ : option Z) : list A :=
  let n := len xs in
  let k := clamp_index n start in
  let final := match end_ with None => n | Some e => clamp_index n e end in
  firstn (Z.to_nat (final - k)) (skipn (Z.to_nat k) xs).

(** [xs.reduce((sum, p) => sum + p, 0)] *)
Definition sum (xs : list number) : number := fold_left add xs (Num 0).

(** The indices visited by [for (let i = from; i < to; i++)]. *)
Definition range (from to : Z) : list Z :=
  map (fun k => (from + Z.of_nat k)%Z) (List.seq 0 (Z.to_nat (to - from))).

End JS.

Import JS.

Declare Scope js_scope.
Delimit Scope js_scope with js.
Bind Scope js_scope with number.
Infix "+" := add : js_scope.
Infix "-" := sub : js_scope.
Infix "*" := mul : js_scope.
Infix "/" := div : js_scope.
Infix "<?" := lt (at level 70) : js_scope.
Infix "<=?" := le (at level 70) : js_scope.
Infix ">?" := gt (at level 70) : js_scope.
Infix ">=?" := ge (at level 70) : js_scope.
Infix "===" := strict_eq (at level 70) : js_scope.
Infix "||" := JS.or : js_scope.
Notation "x .[ i ]" := (get x i) (at level 1, left associativity, format "x .[ i ]") : js_scope.
Coercion Num : Q >-> number.

(* ================================================================== *)
(** ** Series utilities *)
(* ================================================================== *)

(** [calculateSMA(prices, period)], for an integer [period]. *)
Definition calculateSMA (prices : list number) (period : Z) : number :=
  if (len prices <? period)%Z then (prices.[len prices - 1] || Num 0)%js
  else
    let slice := slice prices (- period) None in
    (sum slice / Num (inject_Z period))%js.

(** [calculateEMA(prices, period)] *)
Definition calculateEMA (prices : list number) (period : Z) : number :=
  if (len prices <? period)%Z then (prices.[len prices - 1] || Num 0)%js
  else
    let multiplier := (Num 2 / Num (inject_Z period + 1))%js in
    let ema := calculateSMA (slice prices 0 (Some period)) period in
    fold_left
      (fun ema i => ((prices.[i] - ema) * multiplier + ema)%js)
      (range period (len prices)) ema.

(* ================================================================== *)
(** ** Indicator calculators *)
(* ================================================================== *)

(** [calculateRSI(prices, period)]; the loop carries [(gains, losses)]. *)
Definition calculateRSI (prices : list number) (period : Z) : number :=
  if (len prices <? period + 1)%Z then Num 50
  else
    let '(gains, losses) :=
      fold_left
        (fun '(gains, losses) i =>
           let change := (prices.[i] - prices.[i - 1])%js in
           if (change >? Num 0)%js then ((gains + change)%js, losses)
           else (gains, (losses - change)%js))
        (range (len prices - period) (len prices)) (Num 0, Num 0) in
    let avgGain := (gains / Num (inject_Z period))%js in
    let avgLoss := (losses / Num (inject_Z period))%js in
    if (avgLoss === Num 0)%js then Num 100
    else
      let rs := (avgGain / avgLoss)%js in
      (Num 100 - Num 100 / (Num 1 + rs))%js.

Module Macd.
Record t : Type := mk { macd : number; signal : number; histogram : number }.
End Macd.

(** [calculateMACD(prices)] *)
Definition calculateMACD (prices : list number) : Macd.t :=
  let ema12 := calculateEMA prices 12 in
  let ema26 := calculateEMA prices 26 in
  let macd := (ema12 - ema26)%js in
  let signal := (macd * Num 0.8)%js in
  let histogram := (macd - signal)%js in
  Macd.mk macd signal histogram.

(** [calculateATR(highs, lows, closes, period)] *)
Definition calculateATR (highs lows closes : list number) (period : Z) : number :=
  if (len highs <? period + 1)%Z then Num 0
  else
    let trueRanges :=
      map (fun i =>
             Math_max [ (highs.[i] - lows.[i])%js;
                        Math_abs (highs.[i] - closes.[i - 1])%js;
                        Math_abs (lows.[i] - closes.[i - 1])%js ])
          (range 1 (len highs)) in
    calculateSMA trueRanges period.

Module Bands.
Record t : Type := mk { upper : number; middle : number; lower : number }.
End Bands.

(* ================================================================== *)
(** ** Data model *)
(* ================================================================== *)

Module Candle.
Record t : Type := mk {
  time : Z; open : number; high : number; low : number;
  close : number; volume : number }.
End Candle.

Module TechnicalIndicators.
Record t : Type := mk {
  symbol : string;
  price : number;
  sma20 : number;
  sma50 : number;
  sma200 : number;
  ema12 : number;
  ema26 : number;
  rsi14 : number;
  macd : Macd.t;
  atr14 : number;
  bollingerBands : Bands.t;
  volumeSma20 : number;
  volumeRatio : number;
  fundingRate : number;
  openInterest : number }.
End TechnicalIndicators.

Inductive SignalKind : Type := BUY | NEUTRAL | SELL.

Module Signal.
Record t : Type := mk {
  indicator : string;
  signal : SignalKind;
  value : number;
  description : string }.
End Signal.

Inductive PatternType : Type := bullish | bearish | neutral.

Module Pattern.
Record t : Type := mk {
  name : string;
  type : PatternType;
  confidence : number;
  description : string }.
End Pattern.

Module Overall.
Inductive t : Type := STRONG_BUY | BUY | NEUTRAL | SELL | STRONG_SELL.

Definition to_string (o : t) : string :=
  match o with
  | STRONG_BUY => "STRONG_BUY"
  | BUY => "BUY"
  | NEUTRAL => "NEUTRAL"
  | SELL => "SELL"
  | STRONG_SELL => "STRONG_SELL"
  end.
End Overall.

Module MarketSentiment.
Record t : Type := mk {
  symbol : string;
  overall : Overall.t;
  score : number;
  signals : list Signal.t;
  patterns : list Pattern.t;
  summary : string;
  timestamp : Z }.
End MarketSentiment.

(** What one call of [getMarketSentiment] reads from its environment: the
    clock inside [cache.get], inside the closure and inside [cache.set], and
    the series that [fetchOHLCV] returns ([[]] when the request fails). *)
Module Reading.
Record t : Type := mk {
  atGet : Z; atResult : Z; atSet : Z; candles : list Candle.t }.
End Reading.

(** The answer of [cache.stats()]; the keys as a set, their order in the
    array is left out. *)
Module CacheStats.
Record t : Type := mk { size : nat; keys : gset string }.
End CacheStats.

(** The body of the answer of [GET /api/sentiment]. *)
Module SentimentResponse.
Record t : Type := mk {
  success : bool;
  assets : list MarketSentiment.t;
  marketBias : string;
  avgScore : number;
  timestamp : Z }.
End SentimentResponse.

(** [xs.push(x)] *)
Definition push {A} (xs : list A) (x : A) : list A := xs ++ [x].

(** [s.replace(c, d)] for one-character strings: the first occurrence only. *)
Fixpoint replace (s : string) (c d : ascii) : string :=
  match s with
  | EmptyString => EmptyString
  | String a rest =>
      if Ascii.eqb a c then String d rest else String a (replace rest c d)
  end.

(** The decimal rendering of an array length inside a template literal. *)
Definition show_count (n : nat) : string := NilZero.string_of_uint (Nat.to_uint n).

Definition signal_eqb (a b : SignalKind) : bool :=
  match a, b with
  | BUY, BUY | NEUTRAL, NEUTRAL | SELL, SELL => true
  | _, _ => false
  end.

Definition type_eqb (a b : PatternType) : bool :=
  match a, b with
  | bullish, bullish | bearish, bearish | neutral, neutral => true
  | _, _ => false
  end.

(* ================================================================== *)
(** ** A reference host *)
(* ================================================================== *)

(** The two host functions, as used to run the engine on examples: the
    square root is truncated to nine decimals, and [toFixed] is the decimal
    rendering of the specification of ECMAScript for magnitudes below 1e21. *)
Module ReferenceHost.

Local Open Scope string_scope.

Definition Math_sqrt (x : number) : number :=
  match x with
  | NaN | NegInfinity => NaN
  | Infinity => Infinity
  | Num q =>
      if Qlt_bool q 0 then NaN
      else Num (Qred (Z.sqrt (Qfloor (q * 1000000000000000000)) # 1000000000))
  end.

Fixpoint zeros (n : nat) : string :=
  match n with
  | O => ""
  | S k => String "0" (zeros k)
  end.

Definition toFixed (x : number) (digits : Z) : string :=
  match x with
  | NaN => "NaN"
  | Infinity => "Infinity"
  | NegInfinity => "-Infinity"
  | Num q =>
      let f := Z.to_nat digits in
      let n := Qfloor (Qabs q * inject_Z (10 ^ Z.of_nat f) + (1 # 2)) in
      let m := NilZero.string_of_uint (N.to_uint (Z.to_N n)) in
      let m := if (String.length m <=? f)%nat
               then zeros (S f - String.length m) ++ m else m in
      let k := (String.length m - f)%nat in
      (if Qlt_bool q 0 then "-" else "")
        ++ (if (f =? 0)%nat then m else substring 0 k m ++ "." ++ substring k f m)
  end.

End ReferenceHost.

(* ================================================================== *)
(** ** Sample inputs *)
(* ================================================================== *)

(** A flat window of 15 prices. *)
Definition flat15 : list Q := repeat 1 15.

(** Three candles, and 200 closes rising by one from 1 to 200. *)
Definition candle_at (q : Q) : Candle.t :=
  Candle.mk 0 (Num q) (Num q) (Num q) (Num q) (Num 1).

Definition three_candles : list Candle.t := map candle_at [100; 101; 102].

Definition up200 : list number :=
  map (fun k => Num (inject_Z (Z.of_nat k))) (List.seq 1 200).

(** Six BUY signals and three bullish patterns of confidence 100: the sum
    120 is brought to 100, and 100 + 60 to 100 again. *)
Definition six_buys : list Signal.t := repeat (Signal.mk "RSI (14)" BUY (Num 0) "") 6.

Definition three_bulls : list Pattern.t :=
  repeat (Pattern.mk "Bullish Trend" bullish (Num 100) "") 3.

(** Indicators that differ in their funding rate, or in their MACD triple. *)
Definition funding_at (fundingRate : number) : TechnicalIndicators.t :=
  TechnicalIndicators.mk "BTC" (Num 100) (Num 100) (Num 100) (Num 100) (Num 100) (Num 100)
    (Num 50) (Macd.mk (Num 0) (Num 0) (Num 0)) (Num 1)
    (Bands.mk (Num 110) (Num 100) (Num 90)) (Num 1) (Num 1) fundingRate (Num 0).

Definition rising_prices : list Q := map (fun k => inject_Z (Z.of_nat k)) (List.seq 1 30).

Definition macd_of (prices : list Q) : TechnicalIndicators.t :=
  TechnicalIndicators.mk "BTC" (Num 100) (Num 100) (Num 100) (Num 100) (Num 100) (Num 100)
    (Num 50) (calculateMACD (map Num prices)) (Num 1)
    (Bands.mk (Num 110) (Num 100) (Num 90)) (Num 1) (Num 1) (Num 0) (Num 0).

(** Fifteen prices falling by one from 15 to 1, and indicators whose RSI is
    that of a series. *)
Definition falling15 : list Q := map (fun k => inject_Z (Z.of_nat (16 - k))) (List.seq 1 15).

Definition rsi_of (prices : list Q) : TechnicalIndicators.t :=
  TechnicalIndicators.mk "BTC" (Num 100) (Num 100) (Num 100) (Num 100) (Num 100) (Num 100)
    (calculateRSI (map Num prices) 14) (Macd.mk (Num 0) (Num 0) (Num 0)) (Num 1)
    (Bands.mk (Num 110) (Num 100) (Num 90)) (Num 1) (Num 1) (Num 0) (Num 0).

(** A world in which every request fails at the clock reading 0, and one in
    which every request is made at the clock reading 1000. *)
Definition failing_world : string -> Reading.t := fun _ => Reading.mk 0 0 0 [].

Definition later_world : string -> Reading.t := fun _ => Reading.mk 1000 1000 1000 [].

(** Fifty candles at the price 1 without any traded volume. *)
Definition idle_candles : list Candle.t :=
  repeat (Candle.mk 0 (Num 1) (Num 1) (Num 1) (Num 1) (Num 0)) 50.

(** Fifty candles at the price 100 with the traded volume 1. *)
Definition flat_candles : list Candle.t := repeat (candle_at 100) 50.

(* ================================================================== *)
(** ** The engine *)
(* ================================================================== *)

Section Engine.

(** [Math.sqrt(x)] and [x.toFixed(digits)], supplied by the host. *)
Variable Math_sqrt : number -> number.
Variable toFixed : number -> Z -> string.

Local Open Scope string_scope.

(** [calculateBollingerBands(prices, period)] *)
Definition calculateBollingerBands (prices : list number) (period : Z) : Bands.t :=
  let sma := calculateSMA prices period in
  let slice := slice prices (- period) None in
  let squaredDiffs := map (fun p => Math_pow2 (p - sma)%js) slice in
  let variance := (sum squaredDiffs / Num (inject_Z period))%js in
  let stdDev := Math_sqrt variance in
  Bands.mk (sma + stdDev * Num 2)%js sma (sma - stdDev * Num 2)%js.

(** [detectPatterns(prices, highs, lows)] *)
Definition detectPatterns (prices highs lows : list number) : list Pattern.t :=
  let patterns : list Pattern.t := [] in
  let currentPrice := prices.[len prices - 1]%js in
  let sma20 := calculateSMA prices 20 in
  let sma50 := calculateSMA prices 50 in
  let sma200 := calculateSMA prices 200 in
  (* Golden Cross / Death Cross *)
  let patterns :=
    if (len prices >=? 200)%Z then
      let prevSma50 := calculateSMA (slice prices 0 (Some (-1)%Z)) 50 in
      let prevSma200 := calculateSMA (slice prices 0 (Some (-1)%Z)) 200 in
      let patterns :=
        if (prevSma50 <? prevSma200)%js && (sma50 >? sma200)%js then
          push patterns
            (Pattern.mk "Golden Cross" bullish (Num 85)
               "50 SMA crossed above 200 SMA - major bullish signal")
        else patterns in
      let patterns :=
        if (prevSma50 >? prevSma200)%js && (sma50 <? sma200)%js then
          push patterns
            (Pattern.mk "Death Cross" bearish (Num 85)
               "50 SMA crossed below 200 SMA - major bearish signal")
        else patterns in
      patterns
    else patterns in
  (* Price above/below key MAs *)
  let patterns :=
    if (currentPrice >? sma200)%js && (currentPrice >? sma50)%js then
      push patterns
        (Pattern.mk "Bullish Trend" bullish (Num 70) "Price above both 50 and 200 SMA")
    else if (currentPrice <? sma200)%js && (currentPrice <? sma50)%js then
      push patterns
        (Pattern.mk "Bearish Trend" bearish (Num 70) "Price below both 50 and 200 SMA")
    else patterns in
  (* Support/Resistance test *)
  let recentLow := Math_min (slice lows (-20) None) in
  let recentHigh := Math_max (slice highs (-20) None) in
  let patterns :=
    if (currentPrice <=? recentLow * Num 1.02)%js then
      push patterns
        (Pattern.mk "Support Test" bullish (Num 60)
           ("Testing support at $" ++ toFixed recentLow 0))
    else patterns in
  let patterns :=
    if (currentPrice >=? recentHigh * Num 0.98)%js then
      push patterns
        (Pattern.mk "Resistance Test" bearish (Num 60)
           ("Testing resistance at $" ++ toFixed recentHigh 0))
    else patterns in
  (* Higher highs / Higher lows (uptrend) *)
  let last5Highs := slice highs (-5) None in
  let last5Lows := slice lows (-5) None in
  let '(higherHighs, higherLows) :=
    fold_left
      (fun '(higherHighs, higherLows) i =>
         let higherHighs :=
           if (last5Highs.[i] <=? last5Highs.[i - 1])%js then false else higherHighs in
         let higherLows :=
           if (last5Lows.[i] <=? last5Lows.[i - 1])%js then false else higherLows in
         (higherHighs, higherLows))
      (range 1 (len last5Highs)) (true, true) in
  let patterns :=
    if higherHighs && higherLows then
      push patterns
        (Pattern.mk "Uptrend Structure" bullish (Num 75)
           "Higher highs and higher lows forming")
    else patterns in
  patterns.

(** [generateSignals(indicators)] *)
Definition generateSignals (indicators : TechnicalIndicators.t) : list Signal.t :=
  let rsi14 := TechnicalIndicators.rsi14 indicators in
  let macd := TechnicalIndicators.macd indicators in
  let price := TechnicalIndicators.price indicators in
  let sma20 := TechnicalIndicators.sma20 indicators in
  let sma50 := TechnicalIndicators.sma50 indicators in
  let bollingerBands := TechnicalIndicators.bollingerBands indicators in
  let volumeRatio := TechnicalIndicators.volumeRatio indicators in
  let fundingRate := TechnicalIndicators.fundingRate indicators in
  let signals : list Signal.t := [] in
  (* RSI *)
  let signals :=
    if (rsi14 <? Num 30)%js then
      push signals (Signal.mk "RSI (14)" BUY rsi14 "Oversold - potential bounce")
    else if (rsi14 >? Num 70)%js then
      push signals (Signal.mk "RSI (14)" SELL rsi14 "Overbought - potential pullback")
    else
      push signals (Signal.mk "RSI (14)" NEUTRAL rsi14 "Neutral zone") in
  (* MACD *)
  let signals :=
    if (Macd.histogram macd >? Num 0)%js && (Macd.macd macd >? Macd.signal macd)%js then
      push signals (Signal.mk "MACD" BUY (Macd.histogram macd) "Bullish momentum")
    else if (Macd.histogram macd <? Num 0)%js then
      push signals (Signal.mk "MACD" SELL (Macd.histogram macd) "Bearish momentum")
    else
      push signals (Signal.mk "MACD" NEUTRAL (Macd.histogram macd) "Neutral momentum") in
  (* Moving Average alignment *)
  let signals :=
    if (price >? sma20)%js && (sma20 >? sma50)%js then
      push signals
        (Signal.mk "MA Alignment" BUY sma20 "Price > SMA20 > SMA50 - bullish alignment")
    else if (price <? sma20)%js && (sma20 <? sma50)%js then
      push signals
        (Signal.mk "MA Alignment" SELL sma20 "Price < SMA20 < SMA50 - bearish alignment")
    else
      push signals (Signal.mk "MA Alignment" NEUTRAL sma20 "Mixed MA signals") in
  (* Bollinger Bands *)
  let signals :=
    if (price <=? Bands.lower bollingerBands)%js then
      push signals
        (Signal.mk "Bollinger Bands" BUY price "Price at lower band - oversold")
    else if (price >=? Bands.upper bollingerBands)%js then
      push signals
        (Signal.mk "Bollinger Bands" SELL price "Price at upper band - overbought")
    else
      push signals (Signal.mk "Bollinger Bands" NEUTRAL price "Price within bands") in
  (* Volume *)
  let signals :=
    if (volumeRatio >? Num 2)%js then
      push signals
        (Signal.mk "Volume" (if (price >? sma20)%js then BUY else SELL) volumeRatio
           ("Volume " ++ toFixed volumeRatio 1 ++ "x average - high activity"))
    else signals in
  (* Funding Rate (for perps) *)
  let signals :=
    if (fundingRate <? Num (-0.01))%js then
      push signals
        (Signal.mk "Funding Rate" BUY fundingRate "Negative funding - shorts paying longs")
    else if (fundingRate >? Num 0.05)%js then
      push signals
        (Signal.mk "Funding Rate" SELL fundingRate
           "High positive funding - longs overleveraged")
    else signals in
  signals.

(** [calculateSentimentScore(signals)] *)
Definition calculateSentimentScore (signals : list Signal.t) : number :=
  let score :=
    fold_left
      (fun score signal =>
         if signal_eqb (Signal.signal signal) BUY then (score + Num 20)%js
         else if signal_eqb (Signal.signal signal) SELL then (score - Num 20)%js
         else score)
      signals (Num 0) in
  Math_max [Num (-100); Math_min [Num 100; score]].

(** The pattern influence accumulated by [getMarketSentiment]. *)
Definition patternScore (patterns : list Pattern.t) : number :=
  fold_left
    (fun patternScore p =>
       if type_eqb (Pattern.type p) bullish
       then (patternScore + Pattern.confidence p * Num 0.2)%js
       else if type_eqb (Pattern.type p) bearish
       then (patternScore - Pattern.confidence p * Num 0.2)%js
       else patternScore)
    patterns (Num 0).

(** [finalScore] of [getMarketSentiment]. *)
Definition finalScore (score : number) (patterns : list Pattern.t) : number :=
  Math_max [Num (-100); Math_min [Num 100; (score + patternScore patterns)%js]].

(** The five-level classification of [getMarketSentiment]. *)
Definition classify (finalScore : number) : Overall.t :=
  if (finalScore >=? Num 60)%js then Overall.STRONG_BUY
  else if (finalScore >=? Num 20)%js then Overall.BUY
  else if (finalScore <=? Num (-60))%js then Overall.STRONG_SELL
  else if (finalScore <=? Num (-20))%js then Overall.SELL
  else Overall.NEUTRAL.

(** The body of the closure that [getMarketSentiment] hands to [withCache]:
    [ohlcv] is what [fetchOHLCV(symbol, "1h", 200)] returned and [now] what
    [Date.now()] reads when the result is built. *)
Definition evaluate (now : Z) (symbol : string) (ohlcv : list Candle.t)
  : MarketSentiment.t :=
  if (len ohlcv <? 50)%Z then
    MarketSentiment.mk symbol Overall.NEUTRAL (Num 0) [] []
      "Insufficient data for analysis" now
  else
    let closes := map Candle.close ohlcv in
    let highs := map Candle.high ohlcv in
    let lows := map Candle.low ohlcv in
    let volumes := map Candle.volume ohlcv in
    let currentPrice := closes.[len closes - 1]%js in
    let indicators :=
      TechnicalIndicators.mk symbol currentPrice
        (calculateSMA closes 20) (calculateSMA closes 50) (calculateSMA closes 200)
        (calculateEMA closes 12) (calculateEMA closes 26)
        (calculateRSI closes 14)
        (calculateMACD closes)
        (calculateATR highs lows closes 14)
        (calculateBollingerBands closes 20)
        (calculateSMA volumes 20)
        (volumes.[len volumes - 1] / calculateSMA volumes 20)%js
        (Num 0) (Num 0) in
    let signals := generateSignals indicators in
    let patterns := detectPatterns closes highs lows in
    let score := calculateSentimentScore signals in
    let finalScore := finalScore score patterns in
    let overall := classify finalScore in
    let buySignals :=
      length (List.filter (fun s => signal_eqb (Signal.signal s) BUY) signals) in
    let sellSignals :=
      length (List.filter (fun s => signal_eqb (Signal.signal s) SELL) signals) in
    let bullishPatterns :=
      length (List.filter (fun p => type_eqb (Pattern.type p) bullish) patterns) in
    let bearishPatterns :=
      length (List.filter (fun p => type_eqb (Pattern.type p) bearish) patterns) in
    let summary :=
      symbol ++ " is " ++ replace (Overall.to_string overall) "_" " " ++ ". " in
    let summary :=
      summary ++ show_count buySignals ++ " buy signals, "
              ++ show_count sellSignals ++ " sell signals. " in
    let summary :=
      if (0 <? bullishPatterns)%nat
      then summary ++ show_count bullishPatterns ++ " bullish pattern(s). "
      else summary in
    let summary :=
      if (0 <? bearishPatterns)%nat
      then summary ++ show_count bearishPatterns ++ " bearish pattern(s). "
      else summary in
    let summary :=
      summary ++ "RSI: " ++ toFixed (TechnicalIndicators.rsi14 indicators) 1
              ++ ", Price vs SMA200: "
              ++ toFixed ((currentPrice / TechnicalIndicators.sma200 indicators - Num 1)
                          * Num 100)%js 1
              ++ "%" in
    MarketSentiment.mk symbol overall finalScore signals patterns summary now.

(* ------------------------------------------------------------------ *)
(** *** The memoization layer ([cache.ts]) *)

Record CacheEntry (T : Type) : Type := { data : T; expiresAt : Z }.
Arguments data {T}.
Arguments expiresAt {T}.

(** The [Map] held by the singleton [MemoryCache]. *)
Definition MemoryCache (T : Type) : Type := gmap string (CacheEntry T).

(** [cache.get(key)] when [Date.now()] reads [now]: the value, or [None] for
    [null], and the map after the call. *)
Definition cache_get {T} (cache : MemoryCache T) (now : Z) (key : string)
  : option T * MemoryCache T :=
  match cache !! key with
  | None => (None, cache)
  | Some entry =>
      if (now >? expiresAt entry)%Z then (None, delete key cache)
      else (Some (data entry), cache)
  end.

(** [cache.set(key, data, ttlSeconds)] when [Date.now()] reads [now]. *)
Definition cache_set {T} (cache : MemoryCache T) (now : Z) (key : string)
    (data : T) (ttlSeconds : Z) : MemoryCache T :=
  <[ key := {| data := data; expiresAt := (now + ttlSeconds * 1000)%Z |} ]> cache.

(** [withCache(key, ttlSeconds, fetchFn)]: [tGet] and [tSet] are the clock
    readings inside [cache.get] and [cache.set]. *)
Definition withCache {T} (cache : MemoryCache T) (tGet tSet : Z) (key : string)
    (ttlSeconds : Z) (fetchFn : unit -> T) : T * MemoryCache T :=
  match cache_get cache tGet key with
  | (Some cached, cache) => (cached, cache)
  | (None, cache) =>
      let data := fetchFn tt in
      (data, cache_set cache tSet key data ttlSeconds)
  end.

(** [getMarketSentiment(symbol)] on the cache [cache]; [ohlcv] is the series
    the fetch returns and [tNow] the clock reading inside the closure, both
    consulted only when the closure runs. *)
Definition getMarketSentiment (cache : MemoryCache MarketSentiment.t)
    (tGet tNow tSet : Z) (ohlcv : list Candle.t) (symbol : string)
  : MarketSentiment.t * MemoryCache MarketSentiment.t :=
  withCache cache tGet tSet ("sentiment:" ++ symbol) 60
    (fun _ => evaluate tNow symbol ohlcv).

(** [cache.delete(key)], [cache.clear()] and [cache.stats()] *)
Definition cache_delete {T} (cache : MemoryCache T) (key : string) : MemoryCache T :=
  delete key cache.

Definition cache_clear {T} (cache : MemoryCache T) : MemoryCache T := ∅.

Definition cache_stats {T} (cache : MemoryCache T) : CacheStats.t :=
  CacheStats.mk (base.size cache) (dom cache).

(** [getAllSentiments()]: [world symbol] is what the call for [symbol]
    reads.  The three calls use three different keys of the cache, so they
    are run one after the other here. *)
Definition getAllSentiments (cache : MemoryCache MarketSentiment.t)
    (world : string -> Reading.t)
  : list MarketSentiment.t * MemoryCache MarketSentiment.t :=
  let symbols := ["BTC"; "ETH"; "HYPE"] in
  fold_left
    (fun '(results, cache) symbol =>
       let '(result, cache) :=
         getMarketSentiment cache
           (Reading.atGet (world symbol)) (Reading.atResult (world symbol))
           (Reading.atSet (world symbol)) (Reading.candles (world symbol)) symbol in
       (results ++ [result], cache)%list)
    symbols ([], cache).

(** [GET] of [app/api/sentiment/route.ts]; [now] is the clock reading of the
    answer. *)
Definition GET (cache : MemoryCache MarketSentiment.t) (world : string -> Reading.t)
    (now : Z) : SentimentResponse.t * MemoryCache MarketSentiment.t :=
  let '(sentiments, cache) := getAllSentiments cache world in
  let avgScore :=
    (fold_left (fun sum s => (sum + MarketSentiment.score s)%js) sentiments (Num 0)
     / Num (inject_Z (len sentiments)))%js in
  let marketBias :=
    if (avgScore >=? Num 40)%js then "BULLISH"
    else if (avgScore <=? Num (-40))%js then "BEARISH"
    else "NEUTRAL" in
  (SentimentResponse.mk true sentiments marketBias avgScore now, cache).

(* ------------------------------------------------------------------ *)
(** *** The blocks of [generateSignals] and of [detectPatterns]

    Each function appends, block after block, to one array; the blocks are
    named here so that a statement can speak of one of them. *)

Definition rsiBlock (rsi14 : number) : list Signal.t :=
  if (rsi14 <? Num 30)%js then
    [Signal.mk "RSI (14)" BUY rsi14 "Oversold - potential bounce"]
  else if (rsi14 >? Num 70)%js then
    [Signal.mk "RSI (14)" SELL rsi14 "Overbought - potential pullback"]
  else [Signal.mk "RSI (14)" NEUTRAL rsi14 "Neutral zone"].

Definition macdBlock (macd : Macd.t) : list Signal.t :=
  if (Macd.histogram macd >? Num 0)%js && (Macd.macd macd >? Macd.signal macd)%js then
    [Signal.mk "MACD" BUY (Macd.histogram macd) "Bullish momentum"]
  else if (Macd.histogram macd <? Num 0)%js then
    [Signal.mk "MACD" SELL (Macd.histogram macd) "Bearish momentum"]
  else [Signal.mk "MACD" NEUTRAL (Macd.histogram macd) "Neutral momentum"].

Definition maBlock (price sma20 sma50 : number) : list Signal.t :=
  if (price >? sma20)%js && (sma20 >? sma50)%js then
    [Signal.mk "MA Alignment" BUY sma20 "Price > SMA20 > SMA50 - bullish alignment"]
  else if (price <? sma20)%js && (sma20 <? sma50)%js then
    [Signal.mk "MA Alignment" SELL sma20 "Price < SMA20 < SMA50 - bearish alignment"]
  else [Signal.mk "MA Alignment" NEUTRAL sma20 "Mixed MA signals"].

Definition bollingerBlock (price : number) (bands : Bands.t) : list Signal.t :=
  if (price <=? Bands.lower bands)%js then
    [Signal.mk "Bollinger Bands" BUY price "Price at lower band - oversold"]
  else if (price >=? Bands.upper bands)%js then
    [Signal.mk "Bollinger Bands" SELL price "Price at upper band - overbought"]
  else [Signal.mk "Bollinger Bands" NEUTRAL price "Price within bands"].

Definition volumeBlock (price sma20 volumeRatio : number) : list Signal.t :=
  if (volumeRatio >? Num 2)%js then
    [Signal.mk "Volume" (if (price >? sma20)%js then BUY else SELL) volumeRatio
       ("Volume " ++ toFixed volumeRatio 1 ++ "x average - high activity")]
  else [].

Definition fundingBlock (fundingRate : number) : list Signal.t :=
  if (fundingRate <? Num (-0.01))%js then
    [Signal.mk "Funding Rate" BUY fundingRate "Negative funding - shorts paying longs"]
  else if (fundingRate >? Num 0.05)%js then
    [Signal.mk "Funding Rate" SELL fundingRate
       "High positive funding - longs overleveraged"]
  else [].

Definition GoldenCross : Pattern.t :=
  Pattern.mk "Golden Cross" bullish (Num 85)
    "50 SMA crossed above 200 SMA - major bullish signal".

Definition DeathCross : Pattern.t :=
  Pattern.mk "Death Cross" bearish (Num 85)
    "50 SMA crossed below 200 SMA - major bearish signal".

Definition UptrendStructure : Pattern.t :=
  Pattern.mk "Uptrend Structure" bullish (Num 75)
    "Higher highs and higher lows forming".

(** The two moving averages one bar earlier, as [detectPatterns] takes them. *)
Definition prevSma50 (prices : list number) : number :=
  calculateSMA (slice prices 0 (Some (-1)%Z)) 50.
Definition prevSma200 (prices : list number) : number :=
  calculateSMA (slice prices 0 (Some (-1)%Z)) 200.

(** The test of the Golden Cross and the test of the Death Cross. *)
Definition crossesAbove (prices : list number) : bool :=
  (prevSma50 prices <? prevSma200 prices)%js
  && (calculateSMA prices 50 >? calculateSMA prices 200)%js.
Definition crossesBelow (prices : list number) : bool :=
  (prevSma50 prices >? prevSma200 prices)%js
  && (calculateSMA prices 50 <? calculateSMA prices 200)%js.

Definition crossBlock (prices : list number) : list Pattern.t :=
  if (len prices >=? 200)%Z then
    (if crossesAbove prices then [GoldenCross] else [])
      ++ (if crossesBelow prices then [DeathCross] else [])
  else [].

Definition trendBlock (prices : list number) : list Pattern.t :=
  let currentPrice := prices.[len prices - 1]%js in
  if (currentPrice >? calculateSMA prices 200)%js
     && (currentPrice >? calculateSMA prices 50)%js then
    [Pattern.mk "Bullish Trend" bullish (Num 70) "Price above both 50 and 200 SMA"]
  else if (currentPrice <? calculateSMA prices 200)%js
          && (currentPrice <? calculateSMA prices 50)%js then
    [Pattern.mk "Bearish Trend" bearish (Num 70) "Price below both 50 and 200 SMA"]
  else [].

Definition supportBlock (prices lows : list number) : list Pattern.t :=
  let recentLow := Math_min (slice lows (-20) None) in
  if (prices.[len prices - 1] <=? recentLow * Num 1.02)%js then
    [Pattern.mk "Support Test" bullish (Num 60)
       ("Testing support at $" ++ toFixed recentLow 0)]
  else [].

Definition resistanceBlock (prices highs : list number) : list Pattern.t :=
  let recentHigh := Math_max (slice highs (-20) None) in
  if (prices.[len prices - 1] >=? recentHigh * Num 0.98)%js then
    [Pattern.mk "Resistance Test" bearish (Num 60)
       ("Testing resistance at $" ++ toFixed recentHigh 0)]
  else [].

(** The flags [(higherHighs, higherLows)] when the loop of the last block
    ends. *)
Definition higherFlags (highs lows : list number) : bool * bool :=
  let last5Highs := slice highs (-5) None in
  let last5Lows := slice lows (-5) None in
  fold_left
    (fun '(higherHighs, higherLows) i =>
       ((if (last5Highs.[i] <=? last5Highs.[i - 1])%js then false else higherHighs),
        (if (last5Lows.[i] <=? last5Lows.[i - 1])%js then false else higherLows)))
    (range 1 (len last5Highs)) (true, true).

Definition uptrendBlock (highs lows : list number) : list Pattern.t :=
  if fst (higherFlags highs lows) && snd (higherFlags highs lows)
  then [UptrendStructure] else [].

(* ------------------------------------------------------------------ *)
(** *** Notions of the specification *)

(** The finite value of a number; [0] for the others. *)
Definition qval (x : number) : Q :=
  match x with
  | Num q => q
  | _ => 0
  end.

Definition Qsum (xs : list Q) : Q := fold_right Qplus 0 xs.

(** The last [p] elements of a series (the whole series if it is shorter). *)
Definition last_elements {A} (p : nat) (xs : list A) : list A :=
  rev (firstn p (rev xs)).

(** The arithmetic mean of the last [p] elements. *)
Definition mean_of_last (p : Z) (xs : list Q) : Q :=
  Qsum (last_elements (Z.to_nat p) xs) / inject_Z p.

(** The 14 price changes that RSI(14) samples: those ending at the last 14
    prices. *)
Definition sampled_deltas (prices : list Q) : list Q :=
  map (fun i => nth i prices 0 - nth (i - 1) prices 0)
      (List.seq (length prices - 14) 14).

(** Every element exceeds the one before it. *)
Fixpoint rising (xs : list Q) : bool :=
  match xs with
  | a :: (b :: _) as rest => Qlt_bool a b && rising rest
  | _ => true
  end.

(** A value brought into [-100, 100]. *)
Definition Qclamp (q : Q) : Q := Qmax (-100) (Qmin 100 q).

(** The points of a signal and the points of a pattern in the score. *)
Definition signal_points (s : Signal.t) : Q :=
  match Signal.signal s with
  | BUY => 20
  | SELL => -20
  | NEUTRAL => 0
  end.

Definition pattern_points (p : Pattern.t) : Q :=
  match Pattern.type p with
  | bullish => qval (Pattern.confidence p) * 0.2
  | bearish => - (qval (Pattern.confidence p) * 0.2)
  | neutral => 0
  end.

(** The entries of a pattern list with a given name, the names of a pattern
    list, and the entries of a signal list for a given indicator. *)
Definition named (name : string) (patterns : list Pattern.t) : list Pattern.t :=
  List.filter (fun p => String.eqb (Pattern.name p) name) patterns.

Definition names (patterns : list Pattern.t) : list string :=
  map Pattern.name patterns.

Definition about (indicator : string) (signals : list Signal.t) : list Signal.t :=
  List.filter (fun s => String.eqb (Signal.indicator s) indicator) signals.

(** The result of the degradation path of [getMarketSentiment]. *)
Definition insufficient (symbol : string) (now : Z) : MarketSentiment.t :=
  MarketSentiment.mk symbol Overall.NEUTRAL (Num 0) [] []
    "Insufficient data for analysis" now.

(** A result with its time stamp replaced. *)
Definition stamped (now : Z) (r : MarketSentiment.t) : MarketSentiment.t :=
  MarketSentiment.mk (MarketSentiment.symbol r) (MarketSentiment.overall r)
    (MarketSentiment.score r) (MarketSentiment.signals r)
    (MarketSentiment.patterns r) (MarketSentiment.summary r) now.

(** A score that the aggregator can produce: finite, within [-100, 100]. *)
Definition bounded_score (r : MarketSentiment.t) : Prop :=
  exists f : Q, MarketSentiment.score r = Num f /\ -100 <= f <= 100.

(** Every entry of the cache stored for a symbol holds a result for that
    symbol, with a score that the aggregator can produce. *)
Definition sound (cache : MemoryCache MarketSentiment.t) : Prop :=
  forall (symbol : string) (entry : CacheEntry MarketSentiment.t),
    cache !! ("sentiment:" ++ symbol) = Some entry ->
    MarketSentiment.symbol (data entry) = symbol /\ bounded_score (data entry).

(** A flat market: every candle closes, peaks and bottoms at the price [c]
    with the traded volume [v]; opening prices and times are free. *)
Definition flat (c v : Q) (ohlcv : list Candle.t) : Prop :=
  Forall (fun k => Candle.close k = Num c /\ Candle.high k = Num c
                   /\ Candle.low k = Num c /\ Candle.volume k = Num v) ohlcv.

(** The call of [getAllSentiments] for one symbol. *)
Definition callFor (cache : MemoryCache MarketSentiment.t) (world : string -> Reading.t)
    (symbol : string) : MarketSentiment.t * MemoryCache MarketSentiment.t :=
  getMarketSentiment cache
    (Reading.atGet (world symbol)) (Reading.atResult (world symbol))
    (Reading.atSet (world symbol)) (Reading.candles (world symbol)) symbol.

(** The record of indicators that the evaluation builds from its candles. *)
Definition indicatorsOf (symbol : string) (ohlcv : list Candle.t) : TechnicalIndicators.t :=
  let closes := map Candle.close ohlcv in
  let highs := map Candle.high ohlcv in
  let lows := map Candle.low ohlcv in
  let volumes := map Candle.volume ohlcv in
  TechnicalIndicators.mk symbol closes.[len closes - 1]%js
    (calculateSMA closes 20) (calculateSMA closes 50) (calculateSMA closes 200)
    (calculateEMA closes 12) (calculateEMA closes 26)
    (calculateRSI closes 14)
    (calculateMACD closes)
    (calculateATR highs lows closes 14)
    (calculateBollingerBands closes 20)
    (calculateSMA volumes 20)
    (volumes.[len volumes - 1] / calculateSMA volumes 20)%js
    (Num 0) (Num 0).

(* ================================================================== *)
(** ** Numbers: comparisons and finite arithmetic *)
(* ================================================================== *)

Local Open Scope list_scope.

Lemma Qlt_bool_iff (a b : Q) : Qlt_bool a b = true <-> a < b.
Proof.
  unfold Qlt_bool. rewrite negb_true_iff, <- not_true_iff_false, Qle_bool_iff.
  split; [apply Qnot_le_lt | apply Qlt_not_le].
Qed.

Lemma Qlt_bool_false (a b : Q) : Qlt_bool a b = false <-> b <= a.
Proof.
  unfold Qlt_bool. rewrite negb_false_iff. apply Qle_bool_iff.
Qed.

Lemma lt_Num (a b : Q) : (Num a <? Num b)%js = true <-> a < b.
Proof. apply Qlt_bool_iff. Qed.

Lemma le_Num (a b : Q) : (Num a <=? Num b)%js = true <-> a <= b.
Proof. apply Qle_bool_iff. Qed.

Lemma lt_asym (x y : number) : (x <? y)%js = true -> (y <? x)%js = false.
Proof.
  destruct x as [| |a|], y as [| |b|]; simpl; try easy.
  rewrite Qlt_bool_iff, Qlt_bool_false. apply Qlt_le_weak.
Qed.

(* ================================================================== *)
(** ** Arrays: lengths, reads and slices *)
(* ================================================================== *)

Lemma len_map {A B} (f : A -> B) (xs : list A) : len (map f xs) = len xs.
Proof. unfold len. now rewrite length_map. Qed.

Lemma len_nonneg {A} (xs : list A) : (0 <= len xs)%Z.
Proof. unfold len. lia. Qed.

Lemma slice_map {A B} (f : A -> B) (xs : list A) (start : Z) (end_ : option Z) :
  slice (map f xs) start end_ = map f (slice xs start end_).
Proof.
  unfold slice. rewrite len_map. now rewrite skipn_map, firstn_map.
Qed.

Lemma get_map_Num (qs : list Q) (i : Z) :
  (0 <= i < len qs)%Z -> (map Num qs).[i]%js = Num (nth (Z.to_nat i) qs 0).
Proof.
  intros [H0 H1]. unfold get.
  destruct (Z.ltb_spec i 0); [lia|].
  rewrite (nth_indep _ NaN (Num 0)) by (rewrite length_map; unfold len in H1; lia).
  apply (map_nth Num).
Qed.

Lemma get_nil (i : Z) : ([] : list number).[i]%js = NaN.
Proof. unfold get. destruct (i <? 0)%Z; [reflexivity|]. now destruct (Z.to_nat i). Qed.

Lemma last_elements_skipn {A} (p : nat) (xs : list A) :
  last_elements p xs = skipn (length xs - p) xs.
Proof. unfold last_elements. now rewrite firstn_rev, rev_involutive. Qed.

Lemma length_last_elements {A} (p : nat) (xs : list A) :
  length (last_elements p xs) = Nat.min p (length xs).
Proof. rewrite last_elements_skipn, length_skipn. lia. Qed.

(** [xs.slice(-p)] is the last [p] elements, for a positive [p]. *)
Lemma slice_last {A} (xs : list A) (p : Z) :
  (1 <= p)%Z -> slice xs (- p) None = last_elements (Z.to_nat p) xs.
Proof.
  intros Hp. rewrite last_elements_skipn. unfold slice, clamp_index, len.
  destruct (Z.ltb_spec (- p) 0); [|lia].
  replace (Z.to_nat (Z.max (Z.of_nat (length xs) + - p) 0))
    with (length xs - Z.to_nat p)%nat by lia.
  apply firstn_all2. rewrite length_skipn. lia.
Qed.

(** [xs.slice(0, -1)] drops the last element. *)
Lemma slice_init {A} (xs : list A) :
  slice xs 0 (Some (-1)%Z) = removelast xs.
Proof.
  unfold slice, clamp_index, len.
  change (0 <? 0)%Z with false. change (-1 <? 0)%Z with true. cbv iota.
  rewrite Z.min_l by lia. change (Z.to_nat 0) with 0%nat. rewrite skipn_O.
  rewrite removelast_firstn_len, <- Nat.sub_1_r. f_equal. lia.
Qed.

(** Appending under a test, as the engine does, block after block. *)
Lemma push_if1 {A} (c : bool) (xs : list A) (a : A) :
  (if c then push xs a else xs) = xs ++ (if c then [a] else []).
Proof. destruct c; [reflexivity | now rewrite app_nil_r]. Qed.

Lemma push_if2 {A} (c c' : bool) (xs : list A) (a b : A) :
  (if c then push xs a else if c' then push xs b else xs)
  = xs ++ (if c then [a] else if c' then [b] else []).
Proof. destruct c, c'; try reflexivity; now rewrite app_nil_r. Qed.

Lemma push_if3 {A} (c c' : bool) (xs : list A) (a b d : A) :
  (if c then push xs a else if c' then push xs b else push xs d)
  = xs ++ (if c then [a] else if c' then [b] else [d]).
Proof. now destruct c, c'. Qed.

(* ================================================================== *)
(** ** Finite series *)
(* ================================================================== *)

Lemma fold_add_Num (qs : list Q) (acc : Q) :
  exists r, fold_left add (map Num qs) (Num acc) = Num r /\ r == acc + Qsum qs.
Proof.
  revert acc. induction qs as [|q qs IH]; intros acc; simpl.
  - exists acc. split; [reflexivity | lra].
  - destruct (IH (Qred (acc + q))) as (r & Hr & Hq).
    exists r. split; [exact Hr|]. rewrite Hq, Qred_correct. lra.
Qed.

Lemma sum_Num (qs : list Q) :
  exists r, sum (map Num qs) = Num r /\ r == Qsum qs.
Proof.
  destruct (fold_add_Num qs 0) as (r & Hr & Hq).
  exists r. split; [exact Hr | rewrite Hq; lra].
Qed.

Lemma div_Num (a b : Q) :
  ~ b == 0 -> (Num a / Num b)%js = Num (Qred (a / b)).
Proof.
  intros Hb. unfold div. destruct (Qcompare_spec b 0); [contradiction | reflexivity ..].
Qed.

Lemma or_Num (q : Q) : exists r, (Num q || Num 0)%js = Num r /\ r == q.
Proof.
  unfold JS.or, truthy. destruct (Qeq_bool q 0) eqn:E; simpl.
  - exists 0. split; [reflexivity|]. apply Qeq_bool_eq in E. now rewrite E.
  - exists q. split; reflexivity.
Qed.

Lemma inject_Z_nonzero (p : Z) : (p <> 0)%Z -> ~ inject_Z p == 0.
Proof.
  intros Hp H. apply Hp. unfold Qeq in H. simpl in H. lia.
Qed.

Lemma nth_last {A} (xs : list A) (d : A) : nth (length xs - 1) xs d = last xs d.
Proof.
  induction xs as [|a [|b l] IH]; try reflexivity.
  change (nth (length (b :: l)) (a :: b :: l) d = last (b :: l) d).
  rewrite <- IH. simpl. now rewrite Nat.sub_0_r.
Qed.

(** The simple moving average of a finite series is finite. *)
Lemma calculateSMA_Num (qs : list Q) (p : Z) :
  (1 <= p)%Z ->
  exists r, calculateSMA (map Num qs) p = Num r
    /\ ((p <= len qs)%Z -> r == mean_of_last p qs)
    /\ ((len qs < p)%Z -> r == last qs 0).
Proof.
  intros Hp. unfold calculateSMA. rewrite len_map.
  destruct (Z.ltb_spec (len qs) p) as [Hlt|Hge].
  - destruct qs as [|q0 qs'] eqn:Eqs.
    + exists 0. simpl. split; [reflexivity|]. split; [unfold len; simpl; lia | reflexivity].
    + rewrite <- Eqs in *.
      rewrite get_map_Num by (unfold len; rewrite Eqs; simpl; lia).
      destruct (or_Num (nth (Z.to_nat (len qs - 1)) qs 0)) as (r & Hr & Hq).
      exists r. split; [exact Hr|]. split; [lia|]. intros _. rewrite Hq.
      replace (Z.to_nat (len qs - 1)) with (length qs - 1)%nat by (unfold len; lia).
      now rewrite nth_last.
  - rewrite slice_map, (slice_last _ p Hp).
    destruct (sum_Num (last_elements (Z.to_nat p) qs)) as (r & Hr & Hq).
    rewrite Hr, div_Num by (apply inject_Z_nonzero; lia).
    eexists. split; [reflexivity|]. split; [|lia].
    intros _. unfold mean_of_last. now rewrite Qred_correct, Hq.
Qed.


(* ================================================================== *)
(** ** RSI *)
(* ================================================================== *)

Lemma range_of_nat (a k : nat) :
  range (Z.of_nat a) (Z.of_nat (a + k)) = map Z.of_nat (List.seq a k).
Proof.
  unfold range. replace (Z.to_nat (Z.of_nat (a + k) - Z.of_nat a)) with k by lia.
  enough (H : forall b,
             map (fun j => (Z.of_nat a + Z.of_nat j)%Z) (List.seq b k)
             = map Z.of_nat (List.seq (a + b) k))
    by (now rewrite H, Nat.add_0_r).
  induction k as [|k IH]; intros b; simpl; [reflexivity|].
  f_equal; [lia|]. rewrite IH. f_equal. f_equal. lia.
Qed.

(** The loop of [calculateRSI] over a finite series: both sums stay finite
    and non-negative, and the losses stay put exactly when no sampled change
    is negative. *)
Lemma rsi_loop (qs : list Q) (ixs : list nat) :
  Forall (fun i => (1 <= i < length qs)%nat) ixs ->
  forall g l : Q, 0 <= g -> 0 <= l ->
  exists g' l' : Q,
    fold_left
      (fun '(gains, losses) i =>
         let change := ((map Num qs).[i] - (map Num qs).[i - 1])%js in
         if (change >? Num 0)%js then ((gains + change)%js, losses)
         else (gains, (losses - change)%js))
      (map Z.of_nat ixs) (Num g, Num l) = (Num g', Num l')
    /\ 0 <= g' /\ l <= l'
    /\ (l' == l <-> Forall (fun i => 0 <= nth i qs 0 - nth (i - 1) qs 0) ixs).
Proof.
  induction 1 as [|i ixs Hi His IH]; intros g l Hg Hl.
  - exists g, l. simpl. repeat split; try assumption; try apply Qle_refl; constructor.
  - cbn [map fold_left].
    rewrite !get_map_Num by (unfold len; lia).
    replace (Z.to_nat (Z.of_nat i)) with i by lia.
    replace (Z.to_nat (Z.of_nat i - 1)) with (i - 1)%nat by lia.
    set (a := nth i qs 0). set (b := nth (i - 1) qs 0).
    cbn [sub neg add]. unfold gt. cbn [lt].
    assert (Hd : Qred (a + - b) == a - b) by (rewrite Qred_correct; lra).
    destruct (Qlt_bool 0 (Qred (a + - b))) eqn:E.
    + apply Qlt_bool_iff in E. rewrite Hd in E.
      destruct (IH (Qred (g + Qred (a + - b))) l) as (g' & l' & Hf & Hg' & Hl' & Hiff).
      { rewrite Qred_correct, Hd. lra. }
      { exact Hl. }
      subst a b.
      exists g', l'. split; [exact Hf|]. split; [exact Hg'|]. split; [exact Hl'|].
      rewrite Hiff. split; [intros HF; constructor; [lra | exact HF] | now inversion 1].
    + apply Qlt_bool_false in E. rewrite Hd in E.
      destruct (IH g (Qred (l + - Qred (a + - b)))) as (g' & l' & Hf & Hg' & Hl' & Hiff).
      { exact Hg. }
      { rewrite Qred_correct, Hd. lra. }
      rewrite Qred_correct, Hd in Hl', Hiff. subst a b.
      set (a := nth i qs 0) in *. set (b := nth (i - 1) qs 0) in *.
      exists g', l'. split; [exact Hf|]. split; [exact Hg'|]. split; [lra|].
      split.
      * intros Heq. assert (a - b == 0) by lra.
        constructor; [fold a b; lra|]. apply Hiff. lra.
      * inversion 1 as [|? ? Hab Hrest]. fold a b in Hab. assert (a - b == 0) by lra.
        assert (l' == l + - (a - b)) by (now apply Hiff). lra.
Qed.

Lemma sampled_indices_ok (qs : list Q) :
  (15 <= length qs)%nat ->
  Forall (fun i => (1 <= i < length qs)%nat) (List.seq (length qs - 14) 14).
Proof.
  intros H. apply Forall_forall. intros i Hi. apply in_seq in Hi. lia.
Qed.

Lemma rsi_value (g l : Q) :
  0 <= g -> 0 <= l ->
  exists r,
    (let avgGain := (Num g / Num (inject_Z 14))%js in
     let avgLoss := (Num l / Num (inject_Z 14))%js in
     if (avgLoss === Num 0)%js then Num 100
     else (Num 100 - Num 100 / (Num 1 + avgGain / avgLoss))%js) = Num r
    /\ 0 <= r <= 100 /\ (r == 100 <-> l == 0).
Proof.
  intros Hg Hl. cbv zeta.
  rewrite !div_Num by (apply inject_Z_nonzero; lia).
  cbn [strict_eq].
  assert (Hal : Qred (l / inject_Z 14) == l * (1 # 14)) by (now rewrite Qred_correct).
  assert (Hag : Qred (g / inject_Z 14) == g * (1 # 14)) by (now rewrite Qred_correct).
  destruct (Qeq_bool (Qred (l / inject_Z 14)) 0) eqn:E.
  - apply Qeq_bool_eq in E. rewrite Hal in E.
    exists 100. split; [reflexivity|]. split; [lra|]. split; [intros _; lra | reflexivity].
  - apply Qeq_bool_neq in E. rewrite Hal in E.
    assert (Hlpos : 0 < l) by (destruct (Qlt_le_dec 0 l); [assumption | exfalso; apply E; lra]).
    rewrite div_Num by (rewrite Hal; exact E).
    cbn [add].
    set (rs := Qred (Qred (g / inject_Z 14) / Qred (l / inject_Z 14))).
    assert (Hrs : 0 <= rs).
    { unfold rs. rewrite Qred_correct, Hal, Hag.
      apply Qle_shift_div_l; lra. }
    rewrite div_Num by (rewrite Qred_correct; lra).
    cbn [sub neg add].
    set (x := Qred (1 + rs)). assert (Hx : 1 <= x) by (unfold x; rewrite Qred_correct; lra).
    set (y := Qred (100 / x)).
    assert (Hy : 0 < y /\ y <= 100).
    { unfold y. rewrite Qred_correct. split.
      - apply Qlt_shift_div_l; lra.
      - apply Qle_shift_div_r; lra. }
    eexists. split; [reflexivity|]. rewrite Qred_correct.
    split; [lra|]. split; intros; lra.
Qed.


(* ================================================================== *)
(** ** EMA and MACD *)
(* ================================================================== *)

Lemma last_or_zero_Num (qs : list Q) :
  exists r, ((map Num qs).[len qs - 1] || Num 0)%js = Num r.
Proof.
  destruct qs as [|q qs].
  - exists 0. now rewrite get_nil.
  - rewrite get_map_Num by (unfold len; simpl length; lia).
    destruct (or_Num (nth (Z.to_nat (len (q :: qs) - 1)) (q :: qs) 0)) as (r & Hr & _).
    now exists r.
Qed.

Lemma ema_loop (qs : list Q) (m : Q) (ixs : list Z) :
  Forall (fun i => (0 <= i < len qs)%Z) ixs ->
  forall e : Q,
  exists r,
    fold_left (fun ema i => (((map Num qs).[i] - ema) * Num m + ema)%js) ixs (Num e)
    = Num r.
Proof.
  induction 1 as [|i ixs Hi _ IH]; intros e; simpl.
  - now exists e.
  - rewrite get_map_Num by exact Hi. apply IH.
Qed.

Lemma range_bounds (from to i : Z) : In i (range from to) -> (from <= i < to)%Z.
Proof.
  unfold range. rewrite in_map_iff. intros (k & <- & Hk). apply in_seq in Hk. lia.
Qed.

(** The exponential moving average of a finite series is finite. *)
Lemma calculateEMA_Num (qs : list Q) (p : Z) :
  (1 <= p)%Z -> exists r, calculateEMA (map Num qs) p = Num r.
Proof.
  intros Hp. unfold calculateEMA. rewrite len_map.
  destruct (Z.ltb_spec (len qs) p) as [Hlt|Hge].
  - apply last_or_zero_Num.
  - rewrite slice_map.
    destruct (calculateSMA_Num (slice qs 0 (Some p)) p Hp) as (e & He & _).
    rewrite He, div_Num.
    + apply ema_loop. apply Forall_forall. intros i Hi. apply range_bounds in Hi. lia.
    + change (inject_Z p + 1) with (inject_Z p + inject_Z 1).
      rewrite <- inject_Z_plus. apply inject_Z_nonzero. lia.
Qed.

(** The MACD triple of a finite series: the signal line is [macd * 0.8] and
    the histogram [macd * 0.2]. *)
Lemma calculateMACD_Num (qs : list Q) :
  exists m s h : Q,
    calculateMACD (map Num qs) = Macd.mk (Num m) (Num s) (Num h)
    /\ s == m * 0.8 /\ h == m * 0.2.
Proof.
  unfold calculateMACD.
  destruct (calculateEMA_Num qs 12 ltac:(lia)) as (e12 & ->).
  destruct (calculateEMA_Num qs 26 ltac:(lia)) as (e26 & ->).
  cbn [sub neg add mul].
  eexists _, _, _. split; [reflexivity|].
  split; rewrite !Qred_correct; [reflexivity | lra].
Qed.

Lemma macdBlock_Num (m s h : Q) :
  s == m * 0.8 -> h == m * 0.2 ->
  exists e : Signal.t,
    macdBlock (Macd.mk (Num m) (Num s) (Num h)) = [e]
    /\ Signal.indicator e = "MACD"%string
    /\ (Signal.signal e = BUY <-> 0 < m)
    /\ (Signal.signal e = SELL <-> m < 0)
    /\ (Signal.signal e = NEUTRAL <-> m == 0).
Proof.
  intros Hs Hh. unfold macdBlock, gt. cbn [Macd.histogram Macd.macd Macd.signal lt].
  destruct (Qlt_bool 0 h) eqn:E1; [destruct (Qlt_bool s m) eqn:E2|]; cbn [andb].
  - apply Qlt_bool_iff in E1.
    eexists. split; [reflexivity|]. cbn. split; [reflexivity|].
    repeat split; intros; first [reflexivity | discriminate | lra].
  - apply Qlt_bool_iff in E1. apply Qlt_bool_false in E2. exfalso. lra.
  - apply Qlt_bool_false in E1.
    destruct (Qlt_bool h 0) eqn:E3.
    + apply Qlt_bool_iff in E3.
      eexists. split; [reflexivity|]. cbn. split; [reflexivity|].
      repeat split; intros; first [reflexivity | discriminate | lra].
    + apply Qlt_bool_false in E3.
      eexists. split; [reflexivity|]. cbn. split; [reflexivity|].
      repeat split; intros; first [reflexivity | discriminate | lra].
Qed.

(* ================================================================== *)
(** ** The signal generator *)
(* ================================================================== *)

Lemma generateSignals_blocks (indicators : TechnicalIndicators.t) :
  generateSignals indicators =
    rsiBlock (TechnicalIndicators.rsi14 indicators)
    ++ macdBlock (TechnicalIndicators.macd indicators)
    ++ maBlock (TechnicalIndicators.price indicators)
         (TechnicalIndicators.sma20 indicators) (TechnicalIndicators.sma50 indicators)
    ++ bollingerBlock (TechnicalIndicators.price indicators)
         (TechnicalIndicators.bollingerBands indicators)
    ++ volumeBlock (TechnicalIndicators.price indicators)
         (TechnicalIndicators.sma20 indicators)
         (TechnicalIndicators.volumeRatio indicators)
    ++ fundingBlock (TechnicalIndicators.fundingRate indicators).
Proof.
  unfold generateSignals, rsiBlock, macdBlock, maBlock, bollingerBlock,
    volumeBlock, fundingBlock.
  cbv zeta.
  rewrite push_if2, push_if1, !push_if3.
  now rewrite <- !app_assoc.
Qed.

Lemma about_app (n : string) (xs ys : list Signal.t) :
  about n (xs ++ ys) = about n xs ++ about n ys.
Proof. apply filter_app. Qed.

Ltac by_cases :=
  repeat match goal with
         | |- context [if ?c then _ else _] =>
             lazymatch c with
             | context [if _ then _ else _] => fail
             | String.eqb _ _ => fail
             | _ => destruct c
             end
         end;
  cbn [List.filter Signal.indicator Pattern.name];
  repeat match goal with
         | |- context [if ?c then _ else _] => destruct c
         end;
  try reflexivity.

Lemma about_rsiBlock (n : string) (x : number) :
  about n (rsiBlock x) = if String.eqb "RSI (14)" n then rsiBlock x else [].
Proof. unfold rsiBlock, about. by_cases. Qed.

Lemma about_macdBlock (n : string) (x : Macd.t) :
  about n (macdBlock x) = if String.eqb "MACD" n then macdBlock x else [].
Proof. unfold macdBlock, about. by_cases. Qed.

Lemma about_maBlock (n : string) (x y z : number) :
  about n (maBlock x y z) = if String.eqb "MA Alignment" n then maBlock x y z else [].
Proof. unfold maBlock, about. by_cases. Qed.

Lemma about_bollingerBlock (n : string) (x : number) (b : Bands.t) :
  about n (bollingerBlock x b)
  = if String.eqb "Bollinger Bands" n then bollingerBlock x b else [].
Proof. unfold bollingerBlock, about. by_cases. Qed.

Lemma about_volumeBlock (n : string) (x y z : number) :
  about n (volumeBlock x y z) = if String.eqb "Volume" n then volumeBlock x y z else [].
Proof. unfold volumeBlock, about. by_cases. Qed.

Lemma about_fundingBlock (n : string) (x : number) :
  about n (fundingBlock x) = if String.eqb "Funding Rate" n then fundingBlock x else [].
Proof. unfold fundingBlock, about. by_cases. Qed.

(** The entries of one indicator are those of its block. *)
Lemma about_generateSignals (n : string) (indicators : TechnicalIndicators.t) :
  about n (generateSignals indicators) =
    (if String.eqb "RSI (14)" n
     then rsiBlock (TechnicalIndicators.rsi14 indicators) else [])
    ++ (if String.eqb "MACD" n
        then macdBlock (TechnicalIndicators.macd indicators) else [])
    ++ (if String.eqb "MA Alignment" n
        then maBlock (TechnicalIndicators.price indicators)
               (TechnicalIndicators.sma20 indicators)
               (TechnicalIndicators.sma50 indicators) else [])
    ++ (if String.eqb "Bollinger Bands" n
        then bollingerBlock (TechnicalIndicators.price indicators)
               (TechnicalIndicators.bollingerBands indicators) else [])
    ++ (if String.eqb "Volume" n
        then volumeBlock (TechnicalIndicators.price indicators)
               (TechnicalIndicators.sma20 indicators)
               (TechnicalIndicators.volumeRatio indicators) else [])
    ++ (if String.eqb "Funding Rate" n
        then fundingBlock (TechnicalIndicators.fundingRate indicators) else []).
Proof.
  rewrite generateSignals_blocks, !about_app.
  now rewrite about_rsiBlock, about_macdBlock, about_maBlock, about_bollingerBlock,
    about_volumeBlock, about_fundingBlock.
Qed.


(** C7.  The Funding Rate entries of the generated signals: one BUY entry
    when [fundingRate < -0.01], one SELL entry when [fundingRate > 0.05], none
    otherwise; the comparisons are strict, so that a funding rate of
    exactly -0.01 gives no entry and -0.011 gives the BUY entry. *)
Theorem funding_signal_strict_band (indicators : TechnicalIndicators.t) :
  let fundingRate := TechnicalIndicators.fundingRate indicators in
  let funding := about "Funding Rate" (generateSignals indicators) in
  funding =
    (if (fundingRate <? Num (-0.01))%js then
       [Signal.mk "Funding Rate" BUY fundingRate "Negative funding - shorts paying longs"]
     else if (fundingRate >? Num 0.05)%js then
       [Signal.mk "Funding Rate" SELL fundingRate
          "High positive funding - longs overleveraged"]
     else [])
  /\ ((exists e, In e funding /\ Signal.signal e = BUY)
      <-> (fundingRate <? Num (-0.01))%js = true)
  /\ ((exists e, In e funding /\ Signal.signal e = SELL)
      <-> (fundingRate >? Num 0.05)%js = true)
  /\ ((Num (-0.01) <=? fundingRate)%js = true -> (fundingRate <=? Num 0.05)%js = true ->
      funding = [])
  /\ (fundingRate = Num (-0.01) -> funding = [])
  /\ (fundingRate = Num (-0.011) ->
      exists e, funding = [e] /\ Signal.signal e = BUY).
Proof.
  intros fundingRate funding.
  assert (Hf : funding = fundingBlock fundingRate).
  { unfold funding. rewrite about_generateSignals. reflexivity. }
  rewrite Hf. unfold fundingBlock. clear Hf funding.
  split; [reflexivity|].
  split; [|split; [|split; [|split]]].
  - destruct (fundingRate <? Num (-0.01))%js eqn:E1.
    + split; [reflexivity|]. intros _. eexists. split; [left; reflexivity | reflexivity].
    + split; [|discriminate]. intros (e & Hin & He).
      destruct (fundingRate >? Num 0.05)%js; simpl in Hin.
      * destruct Hin as [<-|[]]. discriminate.
      * contradiction.
  - destruct (fundingRate <? Num (-0.01))%js eqn:E1.
    + split.
      * intros (e & [<-|[]] & He). discriminate.
      * intros E2. exfalso. revert E1 E2. unfold gt.
        destruct fundingRate as [| |q|]; simpl; try discriminate.
        rewrite !Qlt_bool_iff. lra.
    + destruct (fundingRate >? Num 0.05)%js eqn:E2.
      * split; [reflexivity|]. intros _. eexists. split; [left; reflexivity | reflexivity].
      * split; [|discriminate]. intros (e & [] & _).
  - intros H1 H2.
    destruct fundingRate as [| |q|]; simpl in *; try discriminate.
    apply Qle_bool_iff in H1, H2. unfold gt. simpl.
    destruct (Qlt_bool q (-0.01)) eqn:E1; [apply Qlt_bool_iff in E1; lra|].
    destruct (Qlt_bool 0.05 q) eqn:E2; [apply Qlt_bool_iff in E2; lra|].
    reflexivity.
  - intros ->. reflexivity.
  - intros ->. eexists. split; reflexivity.
Qed.

(* ================================================================== *)
(** ** The pattern detector *)
(* ================================================================== *)

Lemma detectPatterns_blocks (prices highs lows : list number) :
  detectPatterns prices highs lows =
    crossBlock prices ++ trendBlock prices ++ supportBlock prices lows
    ++ resistanceBlock prices highs ++ uptrendBlock highs lows.
Proof.
  unfold detectPatterns, crossBlock, trendBlock, supportBlock, resistanceBlock,
    uptrendBlock, higherFlags, crossesAbove, crossesBelow, prevSma50, prevSma200.
  cbv zeta.
  destruct (fold_left _ _ _) as [hh hl]. cbn [fst snd].
  rewrite push_if2, !push_if1.
  destruct (len prices >=? 200)%Z; now rewrite <- ?app_assoc.
Qed.

Lemma named_app (n : string) (xs ys : list Pattern.t) :
  named n (xs ++ ys) = named n xs ++ named n ys.
Proof. apply filter_app. Qed.

Lemma In_names (n : string) (ps : list Pattern.t) :
  In n (names ps) <-> named n ps <> [].
Proof.
  unfold names, named. induction ps as [|p ps IH]; simpl.
  - split; [contradiction | congruence].
  - destruct (String.eqb_spec (Pattern.name p) n) as [E|E].
    + split; [discriminate | now left].
    + rewrite <- IH. split; [intros [H|H]; [contradiction | exact H] | now right].
Qed.

Ltac split_cases :=
  repeat match goal with
         | |- context [if ?c then _ else _] =>
             lazymatch c with
             | context [if _ then _ else _] => fail
             | _ => destruct c
             end
         end.

Ltac named_block :=
  rewrite detectPatterns_blocks, !named_app;
  unfold crossBlock, trendBlock, supportBlock, resistanceBlock, uptrendBlock, named;
  cbv zeta; split_cases; reflexivity.

Lemma named_GoldenCross (prices highs lows : list number) :
  named "Golden Cross" (detectPatterns prices highs lows)
  = if (len prices >=? 200)%Z
    then if crossesAbove prices then [GoldenCross] else []
    else [].
Proof. named_block. Qed.

Lemma named_DeathCross (prices highs lows : list number) :
  named "Death Cross" (detectPatterns prices highs lows)
  = if (len prices >=? 200)%Z
    then if crossesBelow prices then [DeathCross] else []
    else [].
Proof. named_block. Qed.

Lemma named_BullishTrend (prices highs lows : list number) :
  named "Bullish Trend" (detectPatterns prices highs lows)
  = firstn 1 (named "Bullish Trend" (trendBlock prices)).
Proof. named_block. Qed.

Lemma named_BearishTrend (prices highs lows : list number) :
  named "Bearish Trend" (detectPatterns prices highs lows)
  = firstn 1 (named "Bearish Trend" (trendBlock prices)).
Proof. named_block. Qed.

Lemma named_UptrendStructure (prices highs lows : list number) :
  named "Uptrend Structure" (detectPatterns prices highs lows)
  = uptrendBlock highs lows.
Proof. named_block. Qed.

Lemma crosses_exclusive (prices : list number) :
  crossesAbove prices = true -> crossesBelow prices = true -> False.
Proof.
  unfold crossesAbove, crossesBelow, gt. rewrite !andb_true_iff.
  intros [H1 _] [H2 _]. apply lt_asym in H1. congruence.
Qed.

Lemma length_crossBlock (prices : list number) : (length (crossBlock prices) <= 1)%nat.
Proof.
  unfold crossBlock. destruct (len prices >=? 200)%Z; [|simpl; lia].
  destruct (crossesAbove prices) eqn:E1, (crossesBelow prices) eqn:E2; simpl; try lia.
  destruct (crosses_exclusive prices E1 E2).
Qed.

Lemma length_trendBlock (prices : list number) : (length (trendBlock prices) <= 1)%nat.
Proof. unfold trendBlock. cbv zeta. split_cases; simpl; lia. Qed.

Lemma length_supportBlock (prices lows : list number) :
  (length (supportBlock prices lows) <= 1)%nat.
Proof. unfold supportBlock. cbv zeta. split_cases; simpl; lia. Qed.

Lemma length_resistanceBlock (prices highs : list number) :
  (length (resistanceBlock prices highs) <= 1)%nat.
Proof. unfold resistanceBlock. cbv zeta. split_cases; simpl; lia. Qed.

Lemma length_uptrendBlock (highs lows : list number) :
  (length (uptrendBlock highs lows) <= 1)%nat.
Proof. unfold uptrendBlock. split_cases; simpl; lia. Qed.

(** C10.  The detector emits at most five entries, never both a Golden Cross
    and a Death Cross, and never both a Bullish Trend and a Bearish Trend. *)
Theorem patterns_at_most_five (prices highs lows : list number) :
  let patterns := detectPatterns prices highs lows in
  (length patterns <= 5)%nat
  /\ ~ (In "Golden Cross" (names patterns) /\ In "Death Cross" (names patterns))
  /\ ~ (In "Bullish Trend" (names patterns) /\ In "Bearish Trend" (names patterns)).
Proof.
  intros patterns. unfold patterns. split; [|split].
  - rewrite detectPatterns_blocks, !length_app.
    pose proof (length_crossBlock prices). pose proof (length_trendBlock prices).
    pose proof (length_supportBlock prices lows).
    pose proof (length_resistanceBlock prices highs).
    pose proof (length_uptrendBlock highs lows). lia.
  - rewrite !In_names, named_GoldenCross, named_DeathCross. intros [H1 H2].
    destruct (len prices >=? 200)%Z; [|now apply H1].
    destruct (crossesAbove prices) eqn:E1; [|now apply H1].
    destruct (crossesBelow prices) eqn:E2; [|now apply H2].
    exact (crosses_exclusive prices E1 E2).
  - rewrite !In_names, named_BullishTrend, named_BearishTrend. intros [H1 H2].
    revert H1 H2. unfold trendBlock, named. cbv zeta. split_cases; simpl; congruence.
Qed.

(** C5.  A Golden Cross entry is emitted only on a series of at least 200
    points whose 50-SMA was below its 200-SMA one bar earlier and is above
    it now; and on such a series, among them 200 increasing closes that make
    this crossing on their final two bars, the detector emits exactly one
    Golden Cross entry, bullish with confidence 85. *)
Theorem golden_cross_rule (prices highs lows : list number) :
  let patterns := detectPatterns prices highs lows in
  let crossing :=
    (200 <= len prices)%Z
    /\ (calculateSMA (removelast prices) 50 <? calculateSMA (removelast prices) 200)%js = true
    /\ (calculateSMA prices 50 >? calculateSMA prices 200)%js = true in
  (In "Golden Cross" (names patterns) -> crossing)
  /\ (crossing ->
      named "Golden Cross" patterns
      = [Pattern.mk "Golden Cross" bullish (Num 85)
           "50 SMA crossed above 200 SMA - major bullish signal"]).
Proof.
  intros patterns crossing. unfold patterns, crossing.
  rewrite In_names, named_GoldenCross.
  unfold crossesAbove, prevSma50, prevSma200. rewrite slice_init.
  destruct (Z.geb_spec (len prices) 200) as [Hge|Hlt].
  - destruct (_ <? _)%js; cbn [andb]; [destruct (_ >? _)%js|].
    + split; [intros _; repeat split; lia | reflexivity].
    + split; [congruence | intros (_ & _ & H); discriminate].
    + split; [congruence | intros (_ & H & _); discriminate].
  - split; [congruence | intros (H & _); lia].
Qed.

Lemma five_elements {A} (xs : list A) :
  (5 <= length xs)%nat ->
  exists a b c d e, last_elements 5 xs = [a; b; c; d; e].
Proof.
  intros H. pose proof (length_last_elements 5 xs) as Hl.
  rewrite Nat.min_l in Hl by exact H.
  destruct (last_elements 5 xs) as [|a [|b [|c [|d [|e [|f l]]]]]]; try discriminate.
  now exists a, b, c, d, e.
Qed.

(** With five aligned bars or more, both flags of the last block stand when
    the loop ends exactly when the last five highs and the last five lows are
    rising. *)
Lemma higherFlags_rising (highs lows : list Q) :
  (5 <= length highs)%nat -> length lows = length highs ->
  fst (higherFlags (map Num highs) (map Num lows))
  && snd (higherFlags (map Num highs) (map Num lows))
  = rising (last_elements 5 highs) && rising (last_elements 5 lows).
Proof.
  intros H5 Hlen. unfold higherFlags.
  rewrite !slice_map, !(slice_last _ 5) by lia. change (Z.to_nat 5) with 5%nat.
  destruct (five_elements highs H5) as (a & b & c & d & e & ->).
  destruct (five_elements lows ltac:(lia)) as (a' & b' & c' & d' & e' & ->).
  cbv -[Qle_bool].
  destruct (Qle_bool b a), (Qle_bool c b), (Qle_bool d c), (Qle_bool e d),
    (Qle_bool b' a'), (Qle_bool c' b'), (Qle_bool d' c'), (Qle_bool e' d');
    reflexivity.
Qed.

(** On at least 50 candles the evaluation hands the closes, the highs and
    the lows of the candles to the detector; on fewer it emits no pattern. *)
Lemma evaluate_patterns (now : Z) (symbol : string) (ohlcv : list Candle.t) :
  MarketSentiment.patterns (evaluate now symbol ohlcv)
  = if (len ohlcv <? 50)%Z then []
    else detectPatterns (map Candle.close ohlcv) (map Candle.high ohlcv)
           (map Candle.low ohlcv).
Proof. unfold evaluate. now destruct (len ohlcv <? 50)%Z. Qed.


(* ------------------------------------------------------------------ *)
(** *** Rising series *)

Lemma Qsum_app (xs ys : list Q) : Qsum (xs ++ ys) == Qsum xs + Qsum ys.
Proof.
  unfold Qsum. induction xs as [|x xs IH]; simpl; [lra|]. rewrite IH. lra.
Qed.

Lemma Qsum_lt_bound (xs : list Q) (c : Q) :
  xs <> [] -> (forall x, In x xs -> x < c) ->
  Qsum xs < inject_Z (Z.of_nat (length xs)) * c.
Proof.
  intros Hne Hlt. destruct xs as [|x xs]; [contradiction|]. clear Hne.
  revert x Hlt. induction xs as [|y xs IH]; intros x Hlt.
  - change (x + 0 < 1 * c). specialize (Hlt x (or_introl eq_refl)). lra.
  - change (Qsum (x :: y :: xs)) with (x + Qsum (y :: xs)).
    replace (Z.of_nat (length (x :: y :: xs))) with (1 + Z.of_nat (length (y :: xs)))%Z
      by (simpl length; lia).
    rewrite inject_Z_plus.
    specialize (IH y (fun z Hz => Hlt z (or_intror Hz))).
    specialize (Hlt x (or_introl eq_refl)).
    change (inject_Z 1) with 1. lra.
Qed.

Lemma Qsum_ge_bound (xs : list Q) (c : Q) :
  (forall x, In x xs -> c <= x) ->
  inject_Z (Z.of_nat (length xs)) * c <= Qsum xs.
Proof.
  induction xs as [|x xs IH]; intros Hge.
  - change (0 * c <= 0). lra.
  - change (Qsum (x :: xs)) with (x + Qsum xs).
    replace (Z.of_nat (length (x :: xs))) with (1 + Z.of_nat (length xs))%Z
      by (simpl length; lia).
    rewrite inject_Z_plus.
    specialize (IH (fun z Hz => Hge z (or_intror Hz))).
    specialize (Hge x (or_introl eq_refl)).
    change (inject_Z 1) with 1. lra.
Qed.

Lemma rising_cons (a b : Q) (l : list Q) :
  rising (a :: b :: l) = true <-> a < b /\ rising (b :: l) = true.
Proof.
  change (rising (a :: b :: l)) with (Qlt_bool a b && rising (b :: l)).
  now rewrite andb_true_iff, Qlt_bool_iff.
Qed.

Lemma rising_head (a : Q) (l : list Q) :
  rising (a :: l) = true -> forall x, In x l -> a < x.
Proof.
  revert a. induction l as [|b l IH]; intros a H x Hx; [contradiction|].
  apply rising_cons in H. destruct H as [Hab Hbl].
  destruct Hx as [<-|Hx]; [exact Hab|].
  apply Qlt_trans with b; [exact Hab | now apply IH].
Qed.

Lemma rising_tail (a : Q) (l : list Q) : rising (a :: l) = true -> rising l = true.
Proof.
  destruct l as [|b l]; [reflexivity|]. intros H. now apply rising_cons in H.
Qed.

Lemma rising_app (xs ys : list Q) :
  rising (xs ++ ys) = true ->
  rising xs = true /\ rising ys = true /\ (forall x y, In x xs -> In y ys -> x < y).
Proof.
  induction xs as [|a xs IH]; intros H.
  - split; [reflexivity|]. split; [exact H|]. contradiction.
  - change ((a :: xs) ++ ys) with (a :: (xs ++ ys)) in H.
    pose proof (rising_head _ _ H) as Ha.
    destruct (IH (rising_tail _ _ H)) as (Hxs & Hys & Hlt).
    split; [|split; [exact Hys|]].
    + destruct xs as [|b xs]; [reflexivity|].
      apply rising_cons. split; [apply Ha; now left | exact Hxs].
    + intros x y [<-|Hx] Hy; [apply Ha, in_or_app; now right | now apply Hlt].
Qed.

(** The mean of a window that holds the whole rising series, or its tail. *)
Lemma rising_sum_below_last (w : list Q) :
  (2 <= length w)%nat -> rising w = true ->
  Qsum w < inject_Z (Z.of_nat (length w)) * last w 0.
Proof.
  intros Hlen Hr.
  assert (Hne : w <> []) by (destruct w; [simpl in Hlen; lia | discriminate]).
  pose proof (app_removelast_last 0 Hne) as Hw.
  rewrite Hw in Hr. apply rising_app in Hr. destruct Hr as (_ & _ & Hlt).
  assert (Hl : length w = S (length (removelast w))).
  { rewrite Hw at 1. rewrite length_app. simpl. lia. }
  rewrite Hw at 1. rewrite Qsum_app. rewrite Hl.
  replace (Z.of_nat (S (length (removelast w)))) with (Z.of_nat (length (removelast w)) + 1)%Z
    by lia.
  rewrite inject_Z_plus. change (inject_Z 1) with 1.
  assert (Qsum (removelast w) < inject_Z (Z.of_nat (length (removelast w))) * last w 0).
  { apply Qsum_lt_bound.
    - destruct (removelast w); [simpl in Hl; lia | discriminate].
    - intros x Hx. apply Hlt; [exact Hx | now left]. }
  change (Qsum [last w 0]) with (last w 0 + 0). lra.
Qed.

Lemma rising_skipn (k : nat) (l : list Q) : rising l = true -> rising (skipn k l) = true.
Proof.
  intros H. rewrite <- (firstn_skipn k l) in H. now apply rising_app in H.
Qed.

Lemma rising_removelast (l : list Q) : rising l = true -> rising (removelast l) = true.
Proof.
  intros H. destruct l as [|a l]; [reflexivity|].
  rewrite (app_removelast_last 0 (l := a :: l)) in H by discriminate.
  now apply rising_app in H.
Qed.

Lemma last_app_r {A} (xs ys : list A) (d : A) :
  ys <> [] -> last (xs ++ ys) d = last ys d.
Proof.
  intros Hne. induction xs as [|x xs IH]; [reflexivity|].
  change ((x :: xs) ++ ys) with (x :: (xs ++ ys)).
  destruct (xs ++ ys) eqn:E; [|exact IH].
  apply app_eq_nil in E. destruct E as [_ E]. contradiction.
Qed.

Lemma last_skipn (k : nat) (l : list Q) :
  (k < length l)%nat -> last (skipn k l) 0 = last l 0.
Proof.
  intros Hk. rewrite <- (firstn_skipn k l) at 2.
  rewrite last_app_r; [reflexivity|].
  intros E. apply (f_equal (@length Q)) in E. rewrite length_skipn in E. simpl in E. lia.
Qed.

(** On exactly 200 rising closes the crossing always holds: the series one
    bar earlier has 199 points, its 200-SMA falls back to its last close,
    which its 50-SMA stays below, and the mean of the last 50 closes exceeds
    the mean of all 200. *)
Lemma golden_cross_on_rising_closes (closes : list Q) (highs lows : list number) :
  length closes = 200%nat -> rising closes = true ->
  named "Golden Cross" (detectPatterns (map Num closes) highs lows) = [GoldenCross].
Proof.
  intros Hlen Hr. rewrite named_GoldenCross, len_map.
  unfold len. rewrite Hlen. change (Z.of_nat 200 >=? 200)%Z with true. cbv iota.
  enough (H : crossesAbove (map Num closes) = true) by now rewrite H.
  unfold crossesAbove, prevSma50, prevSma200, gt. rewrite slice_map, slice_init.
  assert (Hl199 : length (removelast closes) = 199%nat).
  { rewrite removelast_firstn_len, length_firstn. lia. }
  destruct (calculateSMA_Num (removelast closes) 50 ltac:(lia)) as (p50 & -> & Hp50 & _).
  destruct (calculateSMA_Num (removelast closes) 200 ltac:(lia)) as (p200 & -> & _ & Hp200).
  destruct (calculateSMA_Num closes 50 ltac:(lia)) as (s50 & -> & Hs50 & _).
  destruct (calculateSMA_Num closes 200 ltac:(lia)) as (s200 & -> & Hs200 & _).
  specialize (Hp50 ltac:(unfold len; lia)). specialize (Hp200 ltac:(unfold len; lia)).
  specialize (Hs50 ltac:(unfold len; lia)). specialize (Hs200 ltac:(unfold len; lia)).
  apply andb_true_iff. rewrite !lt_Num. rewrite Hp50, Hp200, Hs50, Hs200.
  unfold mean_of_last. change (Z.to_nat 50) with 50%nat. change (Z.to_nat 200) with 200%nat.
  rewrite !last_elements_skipn, Hl199, Hlen.
  change (200 - 200)%nat with 0%nat. change (200 - 50)%nat with 150%nat.
  change (199 - 50)%nat with 149%nat. rewrite skipn_O.
  split.
  - pose proof (rising_sum_below_last (skipn 149 (removelast closes))) as H.
    rewrite length_skipn, Hl199 in H. change (199 - 149)%nat with 50%nat in H.
    specialize (H ltac:(lia) (rising_skipn _ _ (rising_removelast _ Hr))).
    rewrite last_skipn in H by lia.
    change (inject_Z (Z.of_nat 50)) with 50 in H.
    change (Qsum (skipn 149 (removelast closes)) / inject_Z 50)
      with (Qsum (skipn 149 (removelast closes)) * (1 # 50)).
    lra.
  - pose proof Hr as Happ. rewrite <- (firstn_skipn 150 closes) in Happ.
    apply rising_app in Happ. destruct Happ as (_ & Hys & Hlt).
    assert (Hly : length (skipn 150 closes) = 50%nat) by (rewrite length_skipn; lia).
    assert (Hlx : length (firstn 150 closes) = 150%nat) by (rewrite length_firstn; lia).
    destruct (skipn 150 closes) as [|c ys] eqn:Eys; [discriminate|].
    assert (Hx : Qsum (firstn 150 closes) < inject_Z (Z.of_nat 150) * c).
    { pose proof (Qsum_lt_bound (firstn 150 closes) c) as Hx. rewrite Hlx in Hx.
      apply Hx.
      - intros E. rewrite E in Hlx. discriminate.
      - intros x Hin. apply Hlt; [exact Hin | now left]. }
    assert (Hy : inject_Z (Z.of_nat 50) * c <= Qsum (c :: ys)).
    { pose proof (Qsum_ge_bound (c :: ys) c) as Hy. rewrite Hly in Hy.
      apply Hy.
      intros y [<-|Hin]; [apply Qle_refl | apply Qlt_le_weak, (rising_head c ys Hys y Hin)]. }
    assert (Hall : Qsum closes == Qsum (firstn 150 closes) + Qsum (c :: ys)).
    { rewrite <- (firstn_skipn 150 closes) at 1. now rewrite Qsum_app, Eys. }
    change (inject_Z (Z.of_nat 150)) with 150 in Hx.
    change (inject_Z (Z.of_nat 50)) with 50 in Hy.
    change (Qsum closes / inject_Z 200) with (Qsum closes * (1 # 200)).
    change (Qsum (c :: ys) / inject_Z 50) with (Qsum (c :: ys) * (1 # 50)).
    lra.
Qed.

(** Without two bars to compare, the loop of the last block never clears a
    flag: the Uptrend Structure entry is emitted on one bar and on none. *)
Lemma uptrend_without_comparison (prices highs lows : list number) :
  (length highs <= 1)%nat ->
  In "Uptrend Structure" (names (detectPatterns prices highs lows)).
Proof.
  intros H. rewrite In_names, named_UptrendStructure.
  unfold uptrendBlock, higherFlags.
  destruct highs as [|a [|b highs]]; [| |simpl in H; lia]; cbv; discriminate.
Qed.

(* ================================================================== *)
(** ** The sentiment aggregator *)
(* ================================================================== *)

(** The double bound of both scores keeps a finite value in [-100, 100]. *)
Lemma clamp_Num (q : Q) :
  exists r,
    Math_max [Num (-100); Math_min [Num 100; Num q]] = Num r
    /\ r == Qclamp q /\ -100 <= r <= 100.
Proof.
  unfold Math_max, Math_min, Qclamp. cbn [fold_left max2 min2 lt].
  destruct (Qlt_bool q 100) eqn:E1; cbn [max2 lt].
  - apply Qlt_bool_iff in E1.
    destruct (Qlt_bool (-100) q) eqn:E2.
    + apply Qlt_bool_iff in E2. exists q. split; [reflexivity|].
      rewrite Q.min_r, Q.max_r by lra. split; [reflexivity | lra].
    + apply Qlt_bool_false in E2. exists (-100). split; [reflexivity|].
      rewrite Q.min_r, Q.max_l by lra. split; [reflexivity | lra].
  - apply Qlt_bool_false in E1. exists 100. split; [reflexivity|].
    rewrite Q.min_l, Q.max_r by lra. split; [reflexivity | lra].
Qed.

Lemma score_loop (signals : list Signal.t) (acc : Q) :
  exists r,
    fold_left
      (fun score signal =>
         if signal_eqb (Signal.signal signal) BUY then (score + Num 20)%js
         else if signal_eqb (Signal.signal signal) SELL then (score - Num 20)%js
         else score)
      signals (Num acc) = Num r
    /\ r == acc + Qsum (map signal_points signals).
Proof.
  revert acc. induction signals as [|s signals IH]; intros acc.
  - exists acc. split; [reflexivity | simpl; lra].
  - cbn [fold_left map Qsum fold_right]. unfold signal_points at 1.
    destruct (Signal.signal s); cbn [signal_eqb sub neg add].
    + destruct (IH (Qred (acc + 20))) as (r & Hr & Hq).
      exists r. split; [exact Hr|]. rewrite Hq, Qred_correct.
      change (fold_right Qplus 0 (map signal_points signals))
        with (Qsum (map signal_points signals)). lra.
    + destruct (IH acc) as (r & Hr & Hq).
      exists r. split; [exact Hr|]. rewrite Hq.
      change (fold_right Qplus 0 (map signal_points signals))
        with (Qsum (map signal_points signals)). lra.
    + destruct (IH (Qred (acc + - (20)))) as (r & Hr & Hq).
      exists r. split; [exact Hr|]. rewrite Hq, Qred_correct.
      change (fold_right Qplus 0 (map signal_points signals))
        with (Qsum (map signal_points signals)). lra.
Qed.

Lemma patternScore_loop (patterns : list Pattern.t) :
  Forall (fun p => is_finite (Pattern.confidence p)) patterns ->
  forall acc : Q,
  exists r,
    fold_left
      (fun patternScore p =>
         if type_eqb (Pattern.type p) bullish
         then (patternScore + Pattern.confidence p * Num 0.2)%js
         else if type_eqb (Pattern.type p) bearish
         then (patternScore - Pattern.confidence p * Num 0.2)%js
         else patternScore)
      patterns (Num acc) = Num r
    /\ r == acc + Qsum (map pattern_points patterns).
Proof.
  induction 1 as [|p patterns Hp _ IH]; intros acc.
  - exists acc. split; [reflexivity | simpl; lra].
  - cbn [fold_left map Qsum fold_right]. unfold pattern_points at 1.
    destruct (Pattern.confidence p) as [| |c|]; try contradiction.
    destruct (Pattern.type p); cbn [type_eqb sub neg add mul qval].
    + destruct (IH (Qred (acc + Qred (c * 0.2)))) as (r & Hr & Hq).
      exists r. split; [exact Hr|]. rewrite Hq, !Qred_correct.
      change (fold_right Qplus 0 (map pattern_points patterns))
        with (Qsum (map pattern_points patterns)). lra.
    + destruct (IH (Qred (acc + - Qred (c * 0.2)))) as (r & Hr & Hq).
      exists r. split; [exact Hr|]. rewrite Hq, !Qred_correct.
      change (fold_right Qplus 0 (map pattern_points patterns))
        with (Qsum (map pattern_points patterns)). lra.
    + destruct (IH acc) as (r & Hr & Hq).
      exists r. split; [exact Hr|]. rewrite Hq.
      change (fold_right Qplus 0 (map pattern_points patterns))
        with (Qsum (map pattern_points patterns)). lra.
Qed.

(** Every entry that the detector emits carries a finite confidence. *)
Lemma detectPatterns_confidence (prices highs lows : list number) :
  Forall (fun p => is_finite (Pattern.confidence p)) (detectPatterns prices highs lows).
Proof.
  rewrite detectPatterns_blocks.
  unfold crossBlock, trendBlock, supportBlock, resistanceBlock, uptrendBlock.
  cbv zeta. split_cases; cbn [app]; repeat constructor.
Qed.

Lemma aggregate_Num (signals : list Signal.t) (patterns : list Pattern.t) :
  Forall (fun p => is_finite (Pattern.confidence p)) patterns ->
  exists base final : Q,
    calculateSentimentScore signals = Num base
    /\ base == Qclamp (Qsum (map signal_points signals))
    /\ finalScore (Num base) patterns = Num final
    /\ final == Qclamp (base + Qsum (map pattern_points patterns))
    /\ -100 <= final <= 100.
Proof.
  intros Hfin.
  destruct (score_loop signals 0) as (s & Hs' & Hs).
  destruct (clamp_Num s) as (base & Hb' & Hbase & _).
  destruct (patternScore_loop patterns Hfin 0) as (d & Hd' & Hd).
  destruct (clamp_Num (Qred (base + d))) as (final & Hf' & Hfinal & Hbounds).
  exists base, final. unfold calculateSentimentScore, finalScore, patternScore.
  rewrite Hs', Hb', Hd'. cbn [add]. rewrite Hf'.
  split; [reflexivity|]. split.
  - rewrite Hbase. unfold Qclamp. now rewrite Hs, Qplus_0_l.
  - split; [reflexivity|]. split; [|exact Hbounds].
    rewrite Hfinal. unfold Qclamp. now rewrite Qred_correct, Hd, Qplus_0_l.
Qed.

(** C2.  The base score is the sum of +20 per BUY and -20 per SELL signal
    brought into [-100, 100]; the final score is that base plus the sum of
    +0.2 x confidence per bullish and -0.2 x confidence per bearish pattern,
    brought into [-100, 100] again; so the final score lies in [-100, 100]
    whatever the signals and the (finite) confidences, and so does the score
    of every result of the evaluation. *)
Theorem score_within_bounds :
  (forall (signals : list Signal.t) (patterns : list Pattern.t),
     Forall (fun p => is_finite (Pattern.confidence p)) patterns ->
     exists base final : Q,
       calculateSentimentScore signals = Num base
       /\ base == Qclamp (Qsum (map signal_points signals))
       /\ finalScore (Num base) patterns = Num final
       /\ final == Qclamp (base + Qsum (map pattern_points patterns))
       /\ -100 <= final <= 100)
  /\ (forall (now : Z) (symbol : string) (ohlcv : list Candle.t),
      let result := evaluate now symbol ohlcv in
      exists final : Q,
        MarketSentiment.score result = Num final
        /\ -100 <= final <= 100
        /\ ((50 <= len ohlcv)%Z ->
            MarketSentiment.score result
            = finalScore (calculateSentimentScore (MarketSentiment.signals result))
                (MarketSentiment.patterns result))).
Proof.
  split; [exact aggregate_Num|].
  intros now symbol ohlcv result. unfold result, evaluate.
  destruct (Z.ltb_spec (len ohlcv) 50) as [Hlt|Hge].
  - exists 0. cbn [MarketSentiment.score]. split; [reflexivity|]. split; [lra | lia].
  - cbv zeta. cbn [MarketSentiment.score MarketSentiment.signals MarketSentiment.patterns].
    match goal with
    | |- context [finalScore (calculateSentimentScore ?s) ?p] =>
        destruct (aggregate_Num s p (detectPatterns_confidence _ _ _))
          as (base & final & Hb & _ & Hf & _ & Hbounds)
    end.
    exists final. rewrite Hb, Hf. split; [reflexivity|]. split; [exact Hbounds | reflexivity].
Qed.

(** C1.  On fewer than 50 candles the evaluation returns at once the neutral
    result: score 0, no signal, no pattern and the fixed summary, whatever
    the candles hold and whatever the host functions are; and this is what
    [getMarketSentiment] answers when the cache has no live entry. *)
Theorem insufficient_data_short_circuit
    (now : Z) (symbol : string) (ohlcv : list Candle.t) :
  (length ohlcv < 50)%nat ->
  evaluate now symbol ohlcv
  = MarketSentiment.mk symbol Overall.NEUTRAL (Num 0) [] []
      "Insufficient data for analysis" now
  /\ (forall (cache : MemoryCache MarketSentiment.t) (tGet tSet : Z),
        fst (cache_get cache tGet ("sentiment:" ++ symbol)%string) = None ->
        fst (getMarketSentiment cache tGet now tSet ohlcv symbol)
        = insufficient symbol now).
Proof.
  intros Hlen.
  assert (He : evaluate now symbol ohlcv = insufficient symbol now).
  { unfold evaluate, insufficient.
    destruct (Z.ltb_spec (len ohlcv) 50) as [_|Hge]; [reflexivity|].
    unfold len in Hge. lia. }
  split; [exact He|].
  intros cache tGet tSet Hmiss. unfold getMarketSentiment, withCache.
  destruct (cache_get cache tGet _) as [[cached|] cache']; [discriminate|].
  cbn [fst]. exact He.
Qed.

(* ================================================================== *)
(** ** The memoization layer and the clock *)
(* ================================================================== *)

(** After a miss the value is stored and expires [ttlSeconds] later: a
    second call before that instant is served the stored value and leaves
    the map as it is, whatever its own closure would have computed. *)
Lemma withCache_hit_after_miss {T} (cache : MemoryCache T) (tGet tSet tGet' tSet' : Z)
    (key : string) (ttlSeconds : Z) (fetchFn fetchFn' : unit -> T) :
  fst (cache_get cache tGet key) = None ->
  (tGet' <= tSet + ttlSeconds * 1000)%Z ->
  forall r c,
    withCache cache tGet tSet key ttlSeconds fetchFn = (r, c) ->
    r = fetchFn tt
    /\ withCache c tGet' tSet' key ttlSeconds fetchFn' = (r, c).
Proof.
  intros Hmiss Hlive r c. unfold withCache.
  destruct (cache_get cache tGet key) as [[cached|] cache']; [discriminate|].
  intros [= <- <-]. split; [reflexivity|].
  unfold cache_get, cache_set, MemoryCache in *.
  rewrite lookup_insert_eq. cbn [expiresAt data].
  destruct (Z.gtb_spec tGet' (tSet + ttlSeconds * 1000)); [lia | reflexivity].
Qed.

(** The clock reading enters a result as its time stamp and nowhere else. *)
Lemma evaluate_stamp (symbol : string) (ohlcv : list Candle.t) :
  exists overall score signals patterns summary,
    forall now : Z,
      evaluate now symbol ohlcv
      = MarketSentiment.mk symbol overall score signals patterns summary now.
Proof.
  unfold evaluate. destruct (len ohlcv <? 50)%Z.
  - eexists _, _, _, _, _. intros now. reflexivity.
  - cbv zeta. eexists _, _, _, _, _. intros now. reflexivity.
Qed.

(** C8 (as amended).  For a fixed symbol and candle series two evaluations
    agree on the score, the classification, the signals, the patterns and
    the summary; the time stamp of a result is the reading of the clock when
    it is built.  Through [getMarketSentiment], a call made while the entry
    stored by an earlier call is alive (60 seconds) is served that very
    result, time stamp included. *)
Theorem evaluation_deterministic_up_to_clock
    (symbol : string) (ohlcv : list Candle.t) :
  (forall now : Z, MarketSentiment.timestamp (evaluate now symbol ohlcv) = now)
  /\ (forall now1 now2 : Z,
        evaluate now2 symbol ohlcv = stamped now2 (evaluate now1 symbol ohlcv))
  /\ (forall (cache : MemoryCache MarketSentiment.t)
             (tGet tNow tSet tGet' tNow' tSet' : Z) (ohlcv' : list Candle.t) r c,
        fst (cache_get cache tGet ("sentiment:" ++ symbol)%string) = None ->
        (tGet' <= tSet + 60000)%Z ->
        getMarketSentiment cache tGet tNow tSet ohlcv symbol = (r, c) ->
        r = evaluate tNow symbol ohlcv
        /\ getMarketSentiment c tGet' tNow' tSet' ohlcv' symbol = (r, c)).
Proof.
  destruct (evaluate_stamp symbol ohlcv) as (o & sc & sg & pt & sm & He).
  split; [|split].
  - intros now. now rewrite He.
  - intros now1 now2. now rewrite (He now1), (He now2).
  - intros cache tGet tNow tSet tGet' tNow' tSet' ohlcv' r c Hmiss Hlive Hcall.
    unfold getMarketSentiment in *.
    exact (withCache_hit_after_miss cache tGet tSet tGet' tSet' _ 60
             (fun _ => evaluate tNow symbol ohlcv) (fun _ => evaluate tNow' symbol ohlcv')
             Hmiss Hlive r c Hcall).
Qed.

(* ================================================================== *)
(** ** The cache on its own *)
(* ================================================================== *)

(** In this part [T] is the type of the values that are stored: values other
    than [null], the one value that [withCache] takes for a miss; clock
    readings and times to live are integers. *)

Lemma cache_get_lookup {T} (c1 c2 : MemoryCache T) (now : Z) (key : string) :
  c1 !! key = c2 !! key -> fst (cache_get c1 now key) = fst (cache_get c2 now key).
Proof.
  intros H. unfold cache_get. rewrite H.
  destruct (c2 !! key) as [e|]; [|reflexivity].
  now destruct (now >? expiresAt e)%Z.
Qed.

Lemma cache_get_other {T} (cache : MemoryCache T) (now : Z) (key key' : string) :
  key <> key' -> snd (cache_get cache now key) !! key' = cache !! key'.
Proof.
  intros Hne. unfold cache_get, MemoryCache in *.
  destruct (cache !! key) as [e|]; [|reflexivity].
  destruct (now >? expiresAt e)%Z; [|reflexivity].
  cbn [snd]. now apply lookup_delete_ne.
Qed.

Lemma withCache_other {T} (cache : MemoryCache T) (tGet tSet : Z) (key key' : string)
    (ttlSeconds : Z) (fetchFn : unit -> T) :
  key <> key' ->
  snd (withCache cache tGet tSet key ttlSeconds fetchFn) !! key' = cache !! key'.
Proof.
  intros Hne. unfold withCache.
  pose proof (cache_get_other cache tGet key key' Hne) as H.
  destruct (cache_get cache tGet key) as [[cached|] cache']; cbn [snd] in *; [exact H|].
  unfold cache_set, MemoryCache in *. now rewrite lookup_insert_ne.
Qed.

(** X1.  A value stored with a time to live is read back, the cache left as
    it is, as long as the clock has not passed the instant of the store plus
    the time to live (that instant included); one millisecond later the read
    answers [null] and removes the entry, leaving the cache as if the key had
    been deleted. *)
Theorem cache_round_trip {T} (cache : MemoryCache T) (tSet tGet : Z) (key : string)
    (value : T) (ttlSeconds : Z) :
  let stored := cache_set cache tSet key value ttlSeconds in
  ((tGet <= tSet + ttlSeconds * 1000)%Z ->
     cache_get stored tGet key = (Some value, stored))
  /\ ((tSet + ttlSeconds * 1000 < tGet)%Z ->
     cache_get stored tGet key = (None, cache_delete cache key)).
Proof.
  intros stored. unfold stored, cache_get, cache_set, cache_delete, MemoryCache in *.
  rewrite lookup_insert_eq. cbn [expiresAt data].
  split; intros H; destruct (Z.gtb_spec tGet (tSet + ttlSeconds * 1000)); try lia.
  - reflexivity.
  - now rewrite delete_insert_eq.
Qed.

(** X2.  What a read of one key answers does not depend on what was done to
    another key: a store, a deletion, a read (which may evict) or a whole
    [withCache] under a different key leave it unchanged. *)
Theorem cache_keys_independent {T} (cache : MemoryCache T) (key key' : string)
    (now now' : Z) :
  key <> key' ->
  (forall (value : T) (ttlSeconds : Z),
     fst (cache_get (cache_set cache now key value ttlSeconds) now' key')
     = fst (cache_get cache now' key'))
  /\ fst (cache_get (cache_delete cache key) now' key') = fst (cache_get cache now' key')
  /\ fst (cache_get (snd (cache_get cache now key)) now' key')
     = fst (cache_get cache now' key')
  /\ (forall (tSet ttlSeconds : Z) (fetchFn : unit -> T),
        fst (cache_get (snd (withCache cache now tSet key ttlSeconds fetchFn)) now' key')
        = fst (cache_get cache now' key')).
Proof.
  intros Hne. repeat split; intros; apply cache_get_lookup.
  - unfold cache_set, MemoryCache in *. now apply lookup_insert_ne.
  - unfold cache_delete, MemoryCache in *. now apply lookup_delete_ne.
  - now apply cache_get_other.
  - now apply withCache_other.
Qed.

(** X3.  [withCache] serves a live entry without consulting the closure:
    the answer and the cache are the same whatever the closure would
    compute.  Without a live entry (none, or one that has expired) it
    answers what the closure computes and stores it under the key with the
    new expiry, replacing the expired entry. *)
Theorem withCache_live_or_fresh {T} (cache : MemoryCache T) (tGet tSet : Z)
    (key : string) (ttlSeconds : Z) (fetchFn : unit -> T) :
  (forall entry, cache !! key = Some entry -> (tGet <= expiresAt entry)%Z ->
     withCache cache tGet tSet key ttlSeconds fetchFn = (data entry, cache))
  /\ ((cache !! key = None
       \/ exists entry, cache !! key = Some entry /\ (expiresAt entry < tGet)%Z) ->
      withCache cache tGet tSet key ttlSeconds fetchFn
      = (fetchFn tt,
         <[ key := {| data := fetchFn tt; expiresAt := (tSet + ttlSeconds * 1000)%Z |} ]>
           cache)).
Proof.
  unfold withCache, cache_get, cache_set, MemoryCache in *. split.
  - intros entry -> Hlive.
    destruct (Z.gtb_spec tGet (expiresAt entry)); [lia | reflexivity].
  - intros [-> | (entry & -> & Hdead)]; [reflexivity|].
    destruct (Z.gtb_spec tGet (expiresAt entry)); [|lia].
    now rewrite insert_delete_eq.
Qed.

(** X4.  The cache evicts on read only.  A store adds its key and removes
    none, expired or not; a read removes its own key when the entry has
    expired, and nothing otherwise; after [clear] the cache is empty and
    every read answers [null]. *)
Theorem cache_stats_accounting {T} (cache : MemoryCache T) (now : Z) (key : string) :
  (forall (value : T) (ttlSeconds : Z),
     let after := cache_stats (cache_set cache now key value ttlSeconds) in
     CacheStats.keys after = {[ key ]} ∪ CacheStats.keys (cache_stats cache)
     /\ CacheStats.size after
        = match cache !! key with
          | Some _ => CacheStats.size (cache_stats cache)
          | None => S (CacheStats.size (cache_stats cache))
          end)
  /\ (let after := cache_stats (snd (cache_get cache now key)) in
      match cache !! key with
      | Some entry =>
          if (now >? expiresAt entry)%Z
          then S (CacheStats.size after) = CacheStats.size (cache_stats cache)
               /\ CacheStats.keys after = CacheStats.keys (cache_stats cache) ∖ {[ key ]}
          else after = cache_stats cache
      | None => after = cache_stats cache
      end)
  /\ (CacheStats.size (cache_stats (cache_clear cache)) = 0%nat
      /\ forall now' key', fst (cache_get (cache_clear cache) now' key') = None).
Proof.
  unfold cache_stats, cache_set, cache_get, cache_clear, MemoryCache in *.
  cbn [CacheStats.size CacheStats.keys]. split; [|split].
  - intros d ttl. cbn zeta. split; [apply dom_insert_L|].
    destruct (cache !! key) eqn:E.
    + eapply map_size_insert_Some. eauto.
    + now apply map_size_insert_None.
  - cbn zeta. destruct (cache !! key) as [entry|] eqn:E; [|reflexivity].
    destruct (now >? expiresAt entry)%Z; [|reflexivity]. cbn [snd]. split.
    + rewrite (map_size_delete_Some key cache) by eauto.
      assert (base.size cache <> 0%nat).
      { intros H0. apply map_size_empty_inv in H0. rewrite H0 in E.
        now rewrite lookup_empty in E. }
      lia.
    + apply dom_delete_L.
  - split; [apply map_size_empty|]. intros now' key'. now rewrite lookup_empty.
Qed.

(* ================================================================== *)
(** ** Sentiments through the cache *)
(* ================================================================== *)

Lemma sentiment_key_inj (a b : string) :
  ("sentiment:" ++ a)%string = ("sentiment:" ++ b)%string -> a = b.
Proof. intros H. simpl in H. now injection H. Qed.

Lemma evaluate_symbol (now : Z) (symbol : string) (ohlcv : list Candle.t) :
  MarketSentiment.symbol (evaluate now symbol ohlcv) = symbol.
Proof.
  destruct (evaluate_stamp symbol ohlcv) as (o & sc & sg & pt & sm & He).
  now rewrite He.
Qed.

Lemma evaluate_bounded (now : Z) (symbol : string) (ohlcv : list Candle.t) :
  bounded_score (evaluate now symbol ohlcv).
Proof.
  unfold bounded_score, evaluate.
  destruct (len ohlcv <? 50)%Z.
  - exists 0. cbn [MarketSentiment.score]. split; [reflexivity | lra].
  - cbv zeta. cbn [MarketSentiment.score].
    match goal with
    | |- context [finalScore (calculateSentimentScore ?s) ?p] =>
        destruct (aggregate_Num s p (detectPatterns_confidence _ _ _))
          as (base & final & Hb & _ & Hf & _ & Hbounds)
    end.
    exists final. now rewrite Hb, Hf.
Qed.

(** What a call answers and what it leaves under its own key depend on the
    entry under that key only. *)
Lemma withCache_own {T} (c1 c2 : MemoryCache T) (tGet tSet : Z) (key : string)
    (ttlSeconds : Z) (fetchFn : unit -> T) :
  c1 !! key = c2 !! key ->
  fst (withCache c1 tGet tSet key ttlSeconds fetchFn)
  = fst (withCache c2 tGet tSet key ttlSeconds fetchFn)
  /\ snd (withCache c1 tGet tSet key ttlSeconds fetchFn) !! key
     = snd (withCache c2 tGet tSet key ttlSeconds fetchFn) !! key.
Proof.
  intros H. unfold withCache, cache_get, cache_set, MemoryCache in *. rewrite <- H.
  destruct (c1 !! key) as [e|] eqn:E.
  - destruct (tGet >? expiresAt e)%Z; cbn [fst snd].
    + now rewrite !lookup_insert_eq.
    + split; [reflexivity | congruence].
  - cbn [fst snd]. now rewrite !lookup_insert_eq.
Qed.

(** A call answers a sound result for its symbol and keeps the cache sound. *)
Lemma getMarketSentiment_keeps_sound (cache : MemoryCache MarketSentiment.t)
    (tGet tNow tSet : Z) (ohlcv : list Candle.t) (symbol : string) :
  sound cache ->
  let (result, cache') := getMarketSentiment cache tGet tNow tSet ohlcv symbol in
  MarketSentiment.symbol result = symbol
  /\ bounded_score result
  /\ sound cache'.
Proof.
  intros Hs. unfold getMarketSentiment, withCache, cache_get.
  destruct (cache !! ("sentiment:" ++ symbol)%string) as [e|] eqn:E.
  - destruct (tGet >? expiresAt e)%Z.
    + split; [apply evaluate_symbol|]. split; [apply evaluate_bounded|].
      intros s' e' H'. unfold cache_set, MemoryCache in *.
      destruct (decide (("sentiment:" ++ symbol)%string = ("sentiment:" ++ s')%string))
        as [Heq|Hne].
      * rewrite <- Heq, lookup_insert_eq in H'. injection H' as <-.
        apply sentiment_key_inj in Heq. subst s'. cbn [data].
        split; [apply evaluate_symbol | apply evaluate_bounded].
      * rewrite lookup_insert_ne, lookup_delete_ne in H' by exact Hne. now apply Hs.
    + destruct (Hs symbol e E) as [H1 H2]. split; [exact H1|]. split; [exact H2 | exact Hs].
  - split; [apply evaluate_symbol|]. split; [apply evaluate_bounded|].
    intros s' e' H'. unfold cache_set, MemoryCache in *.
    destruct (decide (("sentiment:" ++ symbol)%string = ("sentiment:" ++ s')%string))
      as [Heq|Hne].
    + rewrite <- Heq, lookup_insert_eq in H'. injection H' as <-.
      apply sentiment_key_inj in Heq. subst s'. cbn [data].
      split; [apply evaluate_symbol | apply evaluate_bounded].
    + rewrite lookup_insert_ne in H' by exact Hne. now apply Hs.
Qed.

(** The empty cache is sound. *)
Lemma sound_empty : sound ∅.
Proof.
  intros symbol entry H. exfalso.
  exact (lookup_empty_Some (M := gmap string) _ _ H).
Qed.

(** X5.  The cache keeps its entries sound: from a cache in which every
    entry stored for a symbol is a result for that symbol with a score in
    [-100, 100] (the empty cache is one), [getMarketSentiment] answers a
    result for the symbol it was asked, served or fresh, with a score in
    [-100, 100], and leaves such a cache. *)
Theorem getMarketSentiment_sound (cache : MemoryCache MarketSentiment.t)
    (tGet tNow tSet : Z) (ohlcv : list Candle.t) (symbol : string) :
  sound cache ->
  let (result, cache') := getMarketSentiment cache tGet tNow tSet ohlcv symbol in
  MarketSentiment.symbol result = symbol
  /\ bounded_score result
  /\ sound cache'.
Proof. apply getMarketSentiment_keeps_sound. Qed.

(** X6.  Calls for two different symbols do not interfere: each answers what
    it would answer alone, and the cache they leave is the same in either
    order. *)
Theorem getMarketSentiment_commute (cache : MemoryCache MarketSentiment.t)
    (world : string -> Reading.t) (a b : string) :
  a <> b ->
  fst (callFor (snd (callFor cache world a)) world b) = fst (callFor cache world b)
  /\ fst (callFor (snd (callFor cache world b)) world a) = fst (callFor cache world a)
  /\ snd (callFor (snd (callFor cache world a)) world b)
     = snd (callFor (snd (callFor cache world b)) world a).
Proof.
  intros Hab.
  assert (Hk : ("sentiment:" ++ a)%string <> ("sentiment:" ++ b)%string)
    by (intros H; apply Hab, sentiment_key_inj, H).
  assert (Hk' : ("sentiment:" ++ b)%string <> ("sentiment:" ++ a)%string) by congruence.
  unfold callFor, getMarketSentiment.
  set (fa := fun _ : unit => evaluate (Reading.atResult (world a)) a (Reading.candles (world a))).
  set (fb := fun _ : unit => evaluate (Reading.atResult (world b)) b (Reading.candles (world b))).
  set (ka := ("sentiment:" ++ a)%string) in *. set (kb := ("sentiment:" ++ b)%string) in *.
  set (ca := snd (withCache cache (Reading.atGet (world a)) (Reading.atSet (world a)) ka 60 fa)).
  set (cb := snd (withCache cache (Reading.atGet (world b)) (Reading.atSet (world b)) kb 60 fb)).
  assert (Ha : ca !! kb = cache !! kb) by (apply withCache_other; exact Hk).
  assert (Hb : cb !! ka = cache !! ka) by (apply withCache_other; exact Hk').
  split; [apply withCache_own; exact Ha|]. split; [apply withCache_own; exact Hb|].
  apply (map_eq (M := gmap string)). intros k.
  destruct (decide (k = ka)) as [->|Hka]; [|destruct (decide (k = kb)) as [->|Hkb]].
  - etrans; [apply withCache_other; exact Hk'|].
    symmetry. now apply withCache_own.
  - etrans; [|symmetry; apply withCache_other; exact Hk].
    now apply withCache_own.
  - etrans; [apply withCache_other; congruence|].
    etrans; [apply withCache_other; congruence|].
    symmetry.
    etrans; [apply withCache_other; congruence|].
    apply withCache_other; congruence.
Qed.

Lemma getAllSentiments_calls (cache : MemoryCache MarketSentiment.t)
    (world : string -> Reading.t) :
  getAllSentiments cache world
  = ([fst (callFor cache world "BTC");
      fst (callFor (snd (callFor cache world "BTC")) world "ETH");
      fst (callFor (snd (callFor (snd (callFor cache world "BTC")) world "ETH"))
             world "HYPE")],
     snd (callFor (snd (callFor (snd (callFor cache world "BTC")) world "ETH"))
            world "HYPE")).
Proof.
  unfold getAllSentiments, callFor. cbn [fold_left].
  destruct (getMarketSentiment cache _ _ _ _ "BTC") as [r1 c1]. cbn [fst snd].
  destruct (getMarketSentiment c1 _ _ _ _ "ETH") as [r2 c2]. cbn [fst snd].
  destruct (getMarketSentiment c2 _ _ _ _ "HYPE") as [r3 c3]. reflexivity.
Qed.

Lemma callFor_sound (cache : MemoryCache MarketSentiment.t)
    (world : string -> Reading.t) (symbol : string) :
  sound cache ->
  MarketSentiment.symbol (fst (callFor cache world symbol)) = symbol
  /\ bounded_score (fst (callFor cache world symbol))
  /\ sound (snd (callFor cache world symbol)).
Proof.
  intros Hs. unfold callFor.
  pose proof (getMarketSentiment_keeps_sound cache
                (Reading.atGet (world symbol)) (Reading.atResult (world symbol))
                (Reading.atSet (world symbol)) (Reading.candles (world symbol)) symbol Hs)
    as H.
  now destruct (getMarketSentiment _ _ _ _ _ _).
Qed.

Lemma getAllSentiments_keeps_sound (cache : MemoryCache MarketSentiment.t)
    (world : string -> Reading.t) :
  sound cache ->
  map MarketSentiment.symbol (fst (getAllSentiments cache world)) = ["BTC"; "ETH"; "HYPE"]
  /\ Forall bounded_score (fst (getAllSentiments cache world))
  /\ sound (snd (getAllSentiments cache world)).
Proof.
  intros Hs. rewrite getAllSentiments_calls. cbn [fst snd map].
  destruct (callFor_sound cache world "BTC" Hs) as (S1 & B1 & Hs1).
  destruct (callFor_sound _ world "ETH" Hs1) as (S2 & B2 & Hs2).
  destruct (callFor_sound _ world "HYPE" Hs2) as (S3 & B3 & Hs3).
  split; [now rewrite S1, S2, S3|]. split; [|exact Hs3].
  repeat constructor; assumption.
Qed.

(** X7.  From a sound cache [getAllSentiments] answers exactly three
    results, for BTC, ETH and HYPE in this order, each with a score in
    [-100, 100], whether it was served from the cache or evaluated afresh,
    and it leaves the cache sound. *)
Theorem getAllSentiments_sound (cache : MemoryCache MarketSentiment.t)
    (world : string -> Reading.t) :
  sound cache ->
  map MarketSentiment.symbol (fst (getAllSentiments cache world)) = ["BTC"; "ETH"; "HYPE"]
  /\ Forall bounded_score (fst (getAllSentiments cache world))
  /\ sound (snd (getAllSentiments cache world)).
Proof. apply getAllSentiments_keeps_sound. Qed.

Lemma average_of_three (r1 r2 r3 : MarketSentiment.t) :
  bounded_score r1 -> bounded_score r2 -> bounded_score r3 ->
  exists a : Q,
    (fold_left (fun sum s => (sum + MarketSentiment.score s)%js) [r1; r2; r3] (Num 0)
     / Num (inject_Z (len [r1; r2; r3])))%js = Num a
    /\ -100 <= a <= 100.
Proof.
  intros (f1 & E1 & B1) (f2 & E2 & B2) (f3 & E3 & B3).
  cbn [fold_left]. rewrite E1, E2, E3. cbn [add].
  change (inject_Z (len [r1; r2; r3])) with (inject_Z 3).
  rewrite div_Num by (apply inject_Z_nonzero; lia).
  eexists. split; [reflexivity|].
  unfold Qdiv. change (/ inject_Z 3) with (1 # 3).
  split; rewrite !Qred_correct; lra.
Qed.

(** X8.  From a sound cache the answer of [GET /api/sentiment] always
    succeeds, lists the three assets, and reports an average score in
    [-100, 100]; the bias is BULLISH exactly from 40 upwards, BEARISH exactly
    from -40 downwards, NEUTRAL strictly between. *)
Theorem GET_average_bounded (cache : MemoryCache MarketSentiment.t)
    (world : string -> Reading.t) (now : Z) :
  sound cache ->
  let response := fst (GET cache world now) in
  SentimentResponse.success response = true
  /\ map MarketSentiment.symbol (SentimentResponse.assets response)
     = ["BTC"; "ETH"; "HYPE"]
  /\ exists a : Q,
       SentimentResponse.avgScore response = Num a
       /\ -100 <= a <= 100
       /\ (SentimentResponse.marketBias response = "BULLISH"%string <-> 40 <= a)
       /\ (SentimentResponse.marketBias response = "BEARISH"%string <-> a <= -40)
       /\ (SentimentResponse.marketBias response = "NEUTRAL"%string <-> -40 < a < 40).
Proof.
  intros Hs response. unfold response, GET.
  destruct (getAllSentiments_keeps_sound cache world Hs) as (Hsym & Hb & _).
  rewrite getAllSentiments_calls in *. cbn [fst snd] in *.
  cbv zeta. cbn [fst SentimentResponse.success SentimentResponse.assets
                 SentimentResponse.avgScore SentimentResponse.marketBias].
  split; [reflexivity|]. split; [exact Hsym|].
  inversion Hb as [|r1 l1 B1 Hb1]; subst. inversion Hb1 as [|r2 l2 B2 Hb2]; subst.
  inversion Hb2 as [|r3 l3 B3 _]; subst.
  destruct (average_of_three _ _ _ B1 B2 B3) as (a & -> & Ha).
  exists a. split; [reflexivity|]. split; [exact Ha|].
  unfold ge. cbn [le].
  destruct (Qle_bool 40 a) eqn:E1.
  - apply Qle_bool_iff in E1.
    repeat split; intros; first [reflexivity | discriminate | lra].
  - assert (a < 40) by (apply Qlt_bool_iff; unfold Qlt_bool; now rewrite E1).
    destruct (Qle_bool a (-40)) eqn:E2.
    + apply Qle_bool_iff in E2.
      repeat split; intros; first [reflexivity | discriminate | lra].
    + assert (-40 < a) by (apply Qlt_bool_iff; unfold Qlt_bool; now rewrite E2).
      repeat split; intros; first [reflexivity | discriminate | lra].
Qed.

Lemma evaluate_short (now : Z) (symbol : string) (ohlcv : list Candle.t) :
  (length ohlcv < 50)%nat -> evaluate now symbol ohlcv = insufficient symbol now.
Proof.
  intros H. unfold evaluate, insufficient.
  destruct (Z.ltb_spec (len ohlcv) 50) as [_|Hge]; [reflexivity|].
  unfold len in Hge. lia.
Qed.

Lemma callFor_miss (cache : MemoryCache MarketSentiment.t)
    (world : string -> Reading.t) (symbol : string) :
  fst (cache_get cache (Reading.atGet (world symbol)) ("sentiment:" ++ symbol)%string)
  = None ->
  callFor cache world symbol
  = (evaluate (Reading.atResult (world symbol)) symbol (Reading.candles (world symbol)),
     <[ ("sentiment:" ++ symbol)%string :=
          {| data := evaluate (Reading.atResult (world symbol)) symbol
                       (Reading.candles (world symbol));
             expiresAt := (Reading.atSet (world symbol) + 60 * 1000)%Z |} ]> cache).
Proof.
  unfold callFor, getMarketSentiment, withCache, cache_get, cache_set, MemoryCache in *.
  destruct (cache !! ("sentiment:" ++ symbol)%string) as [e|]; [|reflexivity].
  destruct (_ >? _)%Z; [|discriminate]. intros _. now rewrite insert_delete_eq.
Qed.

Lemma callFor_hit (cache : MemoryCache MarketSentiment.t)
    (world : string -> Reading.t) (symbol : string)
    (entry : CacheEntry MarketSentiment.t) :
  cache !! ("sentiment:" ++ symbol)%string = Some entry ->
  (Reading.atGet (world symbol) <= expiresAt entry)%Z ->
  callFor cache world symbol = (data entry, cache).
Proof.
  unfold callFor, getMarketSentiment, withCache, cache_get, MemoryCache in *.
  intros -> H. destruct (Z.gtb_spec (Reading.atGet (world symbol)) (expiresAt entry));
    [lia | reflexivity].
Qed.

(** X9.  When the cache holds no live entry and every fetch comes back with
    fewer than 50 candles (the empty series of a failed request among them),
    [GET /api/sentiment] still succeeds: the three assets are the
    insufficient-data results, the average score is 0 and the bias NEUTRAL.
    These results are stored like any other: for the next 60 seconds the
    route serves them again, whatever the fetches would now return. *)
Theorem failed_fetch_reported_neutral (cache : MemoryCache MarketSentiment.t)
    (world : string -> Reading.t) (now : Z) :
  (forall symbol, In symbol ["BTC"; "ETH"; "HYPE"]%string ->
     fst (cache_get cache (Reading.atGet (world symbol)) ("sentiment:" ++ symbol)%string)
     = None
     /\ (length (Reading.candles (world symbol)) < 50)%nat) ->
  let response := fst (GET cache world now) in
  SentimentResponse.success response = true
  /\ SentimentResponse.assets response
     = [insufficient "BTC" (Reading.atResult (world "BTC"%string));
        insufficient "ETH" (Reading.atResult (world "ETH"%string));
        insufficient "HYPE" (Reading.atResult (world "HYPE"%string))]
  /\ SentimentResponse.avgScore response = Num 0
  /\ SentimentResponse.marketBias response = "NEUTRAL"%string
  /\ (forall (world' : string -> Reading.t) (now' : Z),
        (forall symbol, In symbol ["BTC"; "ETH"; "HYPE"]%string ->
           (Reading.atGet (world' symbol) <= Reading.atSet (world symbol) + 60000)%Z) ->
        SentimentResponse.assets (fst (GET (snd (GET cache world now)) world' now'))
        = SentimentResponse.assets response).
Proof.
  intros H response.
  destruct (H "BTC"%string ltac:(simpl; tauto)) as [MB SB].
  destruct (H "ETH"%string ltac:(simpl; tauto)) as [ME SE].
  destruct (H "HYPE"%string ltac:(simpl; tauto)) as [MH SH].
  assert (Hall : getAllSentiments cache world
                 = ([insufficient "BTC" (Reading.atResult (world "BTC"%string));
                     insufficient "ETH" (Reading.atResult (world "ETH"%string));
                     insufficient "HYPE" (Reading.atResult (world "HYPE"%string))],
                    <[ "sentiment:HYPE"%string :=
                         {| data := insufficient "HYPE" (Reading.atResult (world "HYPE"%string));
                            expiresAt := (Reading.atSet (world "HYPE"%string) + 60 * 1000)%Z |} ]>
                      (<[ "sentiment:ETH"%string :=
                            {| data := insufficient "ETH" (Reading.atResult (world "ETH"%string));
                               expiresAt := (Reading.atSet (world "ETH"%string) + 60 * 1000)%Z |} ]>
                         (<[ "sentiment:BTC"%string :=
                               {| data := insufficient "BTC" (Reading.atResult (world "BTC"%string));
                                  expiresAt := (Reading.atSet (world "BTC"%string) + 60 * 1000)%Z |} ]>
                            cache)))).
  { rewrite getAllSentiments_calls.
    rewrite (callFor_miss cache world "BTC" MB), (evaluate_short _ _ _ SB). cbn [fst snd].
    rewrite (callFor_miss _ world "ETH").
    2:{ rewrite <- ME. apply cache_get_lookup.
        unfold MemoryCache in *. now apply lookup_insert_ne. }
    rewrite (evaluate_short _ _ _ SE). cbn [fst snd].
    rewrite (callFor_miss _ world "HYPE").
    2:{ rewrite <- MH. apply cache_get_lookup.
        unfold MemoryCache in *. now rewrite !lookup_insert_ne. }
    rewrite (evaluate_short _ _ _ SH). reflexivity. }
  unfold response, GET. rewrite Hall. cbv zeta.
  cbn [fst snd SentimentResponse.success SentimentResponse.assets
       SentimentResponse.avgScore SentimentResponse.marketBias].
  split; [reflexivity|]. split; [reflexivity|].
  split; [reflexivity|]. split; [reflexivity|].
  intros world' now' Hlive.
  pose proof (Hlive "BTC"%string ltac:(simpl; tauto)) as LB.
  pose proof (Hlive "ETH"%string ltac:(simpl; tauto)) as LE.
  pose proof (Hlive "HYPE"%string ltac:(simpl; tauto)) as LH.
  rewrite getAllSentiments_calls.
  match goal with
  | |- context [callFor ?c world' "BTC"] => set (stored := c)
  end.
  rewrite (callFor_hit stored world' "BTC" _
             ltac:(unfold stored, MemoryCache in *;
                   rewrite !lookup_insert_ne by discriminate; apply lookup_insert_eq))
    by (cbn [expiresAt]; lia).
  cbn [fst snd data].
  rewrite (callFor_hit stored world' "ETH" _
             ltac:(unfold stored, MemoryCache in *;
                   rewrite lookup_insert_ne by discriminate; apply lookup_insert_eq))
    by (cbn [expiresAt]; lia).
  cbn [fst snd data].
  rewrite (callFor_hit stored world' "HYPE" _
             ltac:(unfold stored, MemoryCache in *; apply lookup_insert_eq))
    by (cbn [expiresAt]; lia).
  reflexivity.
Qed.

(* ================================================================== *)
(** ** Moving averages within the range of the series *)
(* ================================================================== *)

Lemma Qsum_le_bound (xs : list Q) (c : Q) :
  (forall x, In x xs -> x <= c) ->
  Qsum xs <= inject_Z (Z.of_nat (length xs)) * c.
Proof.
  induction xs as [|x xs IH]; intros Hle.
  - change (0 <= 0 * c). lra.
  - change (Qsum (x :: xs)) with (x + Qsum xs).
    replace (Z.of_nat (length (x :: xs))) with (1 + Z.of_nat (length xs))%Z
      by (simpl length; lia).
    rewrite inject_Z_plus.
    specialize (IH (fun z Hz => Hle z (or_intror Hz))).
    specialize (Hle x (or_introl eq_refl)).
    change (inject_Z 1) with 1. lra.
Qed.

Lemma In_last_elements {A} (p : nat) (xs : list A) (x : A) :
  In x (last_elements p xs) -> In x xs.
Proof.
  rewrite last_elements_skipn. intros H.
  rewrite <- (firstn_skipn (length xs - p) xs). apply in_or_app. now right.
Qed.

Lemma inject_Z_pos (p : Z) : (1 <= p)%Z -> 0 < inject_Z p.
Proof. intros H. unfold Qlt. simpl. lia. Qed.

Lemma mean_in_range (w : list Q) (p : Z) (lo hi : Q) :
  (1 <= p)%Z -> Z.of_nat (length w) = p ->
  (forall x, In x w -> lo <= x <= hi) ->
  lo <= Qsum w / inject_Z p <= hi.
Proof.
  intros Hp Hlen Hin. pose proof (inject_Z_pos p Hp) as Hpos.
  pose proof (Qsum_ge_bound w lo (fun x Hx => proj1 (Hin x Hx))) as H1.
  pose proof (Qsum_le_bound w hi (fun x Hx => proj2 (Hin x Hx))) as H2.
  rewrite Hlen in H1, H2. split.
  - apply Qle_shift_div_l; [exact Hpos | lra].
  - apply Qle_shift_div_r; [exact Hpos | lra].
Qed.

Lemma last_In {A} (xs : list A) (d : A) : xs <> [] -> In (last xs d) xs.
Proof.
  intros Hne. rewrite (app_removelast_last d Hne) at 2. apply in_or_app. right. now left.
Qed.

Lemma calculateSMA_in_range (qs : list Q) (p : Z) (lo hi : Q) :
  (1 <= p)%Z -> qs <> [] -> (forall x, In x qs -> lo <= x <= hi) ->
  exists r, calculateSMA (map Num qs) p = Num r /\ lo <= r <= hi.
Proof.
  intros Hp Hne Hin.
  destruct (calculateSMA_Num qs p Hp) as (r & Hr & Hmean & Hlast).
  exists r. split; [exact Hr|].
  destruct (Z.lt_ge_cases (len qs) p) as [Hlt|Hge].
  - rewrite (Hlast Hlt). apply Hin, last_In, Hne.
  - rewrite (Hmean ltac:(lia)). unfold mean_of_last. apply mean_in_range.
    + exact Hp.
    + rewrite length_last_elements. unfold len in Hge. lia.
    + intros x Hx. apply Hin. exact (In_last_elements _ _ _ Hx).
Qed.

Lemma ema_loop_in_range (qs : list Q) (m lo hi : Q) (ixs : list Z) :
  0 <= m <= 1 -> (forall x, In x qs -> lo <= x <= hi) ->
  Forall (fun i => (0 <= i < len qs)%Z) ixs ->
  forall e : Q, lo <= e <= hi ->
  exists r,
    fold_left (fun ema i => (((map Num qs).[i] - ema) * Num m + ema)%js) ixs (Num e)
    = Num r
    /\ lo <= r <= hi.
Proof.
  intros Hm Hin. induction 1 as [|i ixs Hi _ IH]; intros e He.
  - now exists e.
  - cbn [fold_left]. rewrite get_map_Num by exact Hi. cbn [sub neg add mul].
    apply IH. rewrite !Qred_correct.
    assert (Hx : lo <= nth (Z.to_nat i) qs 0 <= hi).
    { apply Hin, nth_In. unfold len in Hi. lia. }
    set (x := nth (Z.to_nat i) qs 0) in *. split; nra.
Qed.

Lemma ema_multiplier (p : Z) :
  (1 <= p)%Z ->
  exists m, (Num 2 / Num (inject_Z p + 1))%js = Num m /\ 0 <= m <= 1.
Proof.
  intros Hp. pose proof (inject_Z_pos p Hp) as Hpos.
  assert (H1 : 1 <= inject_Z p).
  { change 1 with (inject_Z 1). rewrite <- Zle_Qle. exact Hp. }
  rewrite div_Num by lra.
  eexists. split; [reflexivity|]. rewrite Qred_correct. split.
  - apply Qle_shift_div_l; lra.
  - apply Qle_shift_div_r; lra.
Qed.

Lemma slice_In {A} (xs : list A) (start : Z) (end_ : option Z) (x : A) :
  In x (slice xs start end_) -> In x xs.
Proof.
  unfold slice. intros H.
  rewrite <- (firstn_skipn (Z.to_nat (clamp_index (len xs) start)) xs).
  apply in_or_app. right.
  match type of H with
  | In x (firstn ?n ?l) => rewrite <- (firstn_skipn n l); apply in_or_app; now left
  end.
Qed.

Lemma calculateEMA_in_range (qs : list Q) (p : Z) (lo hi : Q) :
  (1 <= p)%Z -> qs <> [] -> (forall x, In x qs -> lo <= x <= hi) ->
  exists r, calculateEMA (map Num qs) p = Num r /\ lo <= r <= hi.
Proof.
  intros Hp Hne Hin. unfold calculateEMA. rewrite len_map.
  destruct (Z.ltb_spec (len qs) p) as [Hlt|Hge].
  - rewrite get_map_Num by (unfold len; destruct qs; [contradiction | simpl length; lia]).
    destruct (or_Num (nth (Z.to_nat (len qs - 1)) qs 0)) as (r & -> & Hq).
    exists r. split; [reflexivity|]. rewrite Hq.
    apply Hin, nth_In. unfold len. destruct qs; [contradiction | simpl length; lia].
  - rewrite slice_map.
    assert (Hs : slice qs 0 (Some p) <> []).
    { unfold slice, clamp_index. change (0 <? 0)%Z with false. cbv iota.
      destruct (Z.ltb_spec p 0); [lia|].
      rewrite !Z.min_l by (pose proof (len_nonneg qs); lia).
      change (Z.to_nat 0) with 0%nat. rewrite skipn_O, Z.sub_0_r.
      destruct qs; [contradiction|].
      destruct (Z.to_nat p) eqn:E; [lia | discriminate]. }
    destruct (calculateSMA_in_range (slice qs 0 (Some p)) p lo hi Hp Hs
                (fun x Hx => Hin x (slice_In _ _ _ _ Hx))) as (e & -> & He).
    destruct (ema_multiplier p Hp) as (m & -> & Hm).
    apply ema_loop_in_range; try assumption.
    apply Forall_forall. intros i Hi. apply range_bounds in Hi. lia.
Qed.


Lemma get_app_l (xs ys : list number) (i : Z) :
  (0 <= i < len xs)%Z -> (xs ++ ys).[i]%js = xs.[i]%js.
Proof.
  intros [H0 H1]. unfold get. destruct (Z.ltb_spec i 0); [lia|].
  apply app_nth1. unfold len in H1. lia.
Qed.

Lemma get_app_last (xs : list number) (x : number) : (xs ++ [x]).[len xs]%js = x.
Proof.
  unfold get, len. destruct (Z.ltb_spec (Z.of_nat (length xs)) 0); [lia|].
  rewrite Nat2Z.id. apply nth_middle.
Qed.

Lemma range_snoc (from to : Z) :
  (from <= to)%Z -> range from (to + 1) = range from to ++ [to].
Proof.
  intros H. unfold range.
  replace (Z.to_nat (to + 1 - from)) with (S (Z.to_nat (to - from))) by lia.
  rewrite seq_S, map_app. cbn [map]. do 2 f_equal. lia.
Qed.

Lemma fold_left_ext_In {A B} (f g : A -> B -> A) (xs : list B) (a : A) :
  (forall b x, In x xs -> f b x = g b x) -> fold_left f xs a = fold_left g xs a.
Proof.
  revert a. induction xs as [|x xs IH]; intros a H; [reflexivity|].
  cbn [fold_left]. rewrite (H a x (or_introl eq_refl)).
  apply IH. intros b y Hy. apply H. now right.
Qed.

Lemma slice_app_prefix {A} (xs ys : list A) (p : Z) :
  (0 <= p <= len xs)%Z -> slice (xs ++ ys) 0 (Some p) = slice xs 0 (Some p).
Proof.
  intros [H0 H1]. unfold slice, clamp_index, len in *. rewrite length_app.
  change (0 <? 0)%Z with false. cbv iota.
  destruct (Z.ltb_spec p 0); [lia|].
  rewrite !Z.min_l by lia. change (Z.to_nat 0) with 0%nat. rewrite !skipn_O, Z.sub_0_r.
  rewrite firstn_app. replace (Z.to_nat p - length xs)%nat with 0%nat by lia.
  now rewrite firstn_O, app_nil_r.
Qed.

(** X11.  One more price updates the exponential moving average by one step
    of its recurrence: once the series holds at least [p] prices, the average
    of the series extended by [x] is the average of the series moved towards
    [x] by the multiplier [2 / (p + 1)].  Nothing else of the series is read
    again, whatever the prices are (not-a-number and infinities included). *)
Theorem ema_append (prices : list number) (x : number) (p : Z) :
  (1 <= p <= len prices)%Z ->
  calculateEMA (prices ++ [x]) p
  = ((x - calculateEMA prices p) * (Num 2 / Num (inject_Z p + 1))
     + calculateEMA prices p)%js.
Proof.
  intros [Hp Hlen]. unfold calculateEMA.
  assert (Hl : len (prices ++ [x]) = (len prices + 1)%Z)
    by (unfold len; rewrite length_app; simpl; lia).
  rewrite Hl.
  destruct (Z.ltb_spec (len prices + 1) p); [lia|].
  destruct (Z.ltb_spec (len prices) p); [lia|].
  rewrite slice_app_prefix by lia. rewrite range_snoc by lia.
  rewrite fold_left_app. cbn [fold_left]. rewrite get_app_last.
  rewrite (fold_left_ext_In
             (fun ema i => (((prices ++ [x]).[i] - ema) * (Num 2 / Num (inject_Z p + 1)) + ema)%js)
             (fun ema i => ((prices.[i] - ema) * (Num 2 / Num (inject_Z p + 1)) + ema)%js)).
  - reflexivity.
  - intros b i Hi. apply range_bounds in Hi. rewrite get_app_l by lia. reflexivity.
Qed.


(* ================================================================== *)
(** ** Volatility: ATR and Bollinger bands *)
(* ================================================================== *)

Lemma max2_Num (a b : Q) :
  exists t, max2 (Num a) (Num b) = Num t /\ a <= t /\ b <= t.
Proof.
  cbn [max2 lt]. destruct (Qlt_bool a b) eqn:E.
  - apply Qlt_bool_iff in E. exists b. split; [reflexivity | lra].
  - apply Qlt_bool_false in E. exists a. split; [reflexivity | lra].
Qed.

(** The true range of a bar is finite and at least as large as the distance
    of its high to the close before it, hence never negative. *)
Lemma true_range_Num (h l c : Q) :
  exists t,
    Math_max [ (Num h - Num l)%js; Math_abs (Num h - Num c)%js;
               Math_abs (Num l - Num c)%js ] = Num t
    /\ 0 <= t.
Proof.
  unfold Math_max. cbn [fold_left sub neg add Math_abs].
  change (max2 NegInfinity (Num (Qred (h + - l)))) with (Num (Qred (h + - l))).
  destruct (max2_Num (Qred (h + - l)) (Qabs (Qred (h + - c)))) as (t1 & -> & _ & H1).
  destruct (max2_Num t1 (Qabs (Qred (l + - c)))) as (t2 & -> & H2 & _).
  exists t2. split; [reflexivity|].
  pose proof (Qabs_nonneg (Qred (h + - c))). lra.
Qed.

Lemma true_ranges_Num (highs lows closes : list Q) (ixs : list Z) :
  Forall (fun i => (1 <= i < len highs)%Z) ixs ->
  length lows = length highs -> length closes = length highs ->
  exists ts : list Q,
    map (fun i =>
           Math_max [ ((map Num highs).[i] - (map Num lows).[i])%js;
                      Math_abs ((map Num highs).[i] - (map Num closes).[i - 1])%js;
                      Math_abs ((map Num lows).[i] - (map Num closes).[i - 1])%js ]) ixs
    = map Num ts
    /\ Forall (fun t => 0 <= t) ts.
Proof.
  intros Hix Hl Hc. induction Hix as [|i ixs Hi _ (ts & IH & Hts)].
  - exists []. split; [reflexivity | constructor].
  - cbn [map]. rewrite !get_map_Num by (unfold len in *; lia).
    destruct (true_range_Num (nth (Z.to_nat i) highs 0) (nth (Z.to_nat i) lows 0)
                (nth (Z.to_nat (i - 1)) closes 0)) as (t & -> & Ht).
    exists (t :: ts). cbn [map]. rewrite IH. split; [reflexivity | now constructor].
Qed.

Lemma calculateSMA_nonneg (ts : list Q) (p : Z) :
  (1 <= p)%Z -> Forall (fun t => 0 <= t) ts ->
  exists r, calculateSMA (map Num ts) p = Num r /\ 0 <= r.
Proof.
  intros Hp Hts. rewrite Forall_forall in Hts.
  destruct (calculateSMA_Num ts p Hp) as (r & Hr & Hmean & Hlast).
  exists r. split; [exact Hr|].
  destruct (Z.lt_ge_cases (len ts) p) as [Hlt|Hge].
  - rewrite (Hlast Hlt). destruct ts as [|t ts']; [apply Qle_refl|].
    apply Hts, last_In. discriminate.
  - rewrite (Hmean ltac:(lia)). unfold mean_of_last.
    apply Qle_shift_div_l; [now apply inject_Z_pos|].
    pose proof (Qsum_ge_bound (last_elements (Z.to_nat p) ts) 0
                  (fun x Hx => Hts x (In_last_elements _ _ _ Hx))). lra.
Qed.


Lemma squares_Num (w : list Q) (m : Q) :
  exists sq : list Q,
    map (fun p => Math_pow2 (p - Num m)%js) (map Num w) = map Num sq
    /\ Forall (fun t => 0 <= t) sq.
Proof.
  induction w as [|x w (sq & IH & Hsq)].
  - exists []. split; [reflexivity | constructor].
  - cbn [map]. rewrite IH. unfold Math_pow2. cbn [sub neg add mul].
    eexists (_ :: sq). split; [reflexivity|]. constructor; [|exact Hsq].
    rewrite Qred_correct. set (d := Qred (x + - m)). nra.
Qed.

Lemma Qsum_nonneg (xs : list Q) : Forall (fun t => 0 <= t) xs -> 0 <= Qsum xs.
Proof.
  intros H. rewrite Forall_forall in H.
  pose proof (Qsum_ge_bound xs 0 H). lra.
Qed.


(* ================================================================== *)
(** ** RSI at its two ends *)
(* ================================================================== *)

(** The loop of [calculateRSI] again, for the gains: they stay put exactly
    when no sampled change is positive. *)
Lemma rsi_loop_gains (qs : list Q) (ixs : list nat) :
  Forall (fun i => (1 <= i < length qs)%nat) ixs ->
  forall g l : Q, 0 <= g -> 0 <= l ->
  exists g' l' : Q,
    fold_left
      (fun '(gains, losses) i =>
         let change := ((map Num qs).[i] - (map Num qs).[i - 1])%js in
         if (change >? Num 0)%js then ((gains + change)%js, losses)
         else (gains, (losses - change)%js))
      (map Z.of_nat ixs) (Num g, Num l) = (Num g', Num l')
    /\ g <= g'
    /\ (g' == g <-> Forall (fun i => nth i qs 0 - nth (i - 1) qs 0 <= 0) ixs).
Proof.
  induction 1 as [|i ixs Hi His IH]; intros g l Hg Hl.
  - exists g, l. simpl. repeat split; try apply Qle_refl; constructor.
  - cbn [map fold_left].
    rewrite !get_map_Num by (unfold len; lia).
    replace (Z.to_nat (Z.of_nat i)) with i by lia.
    replace (Z.to_nat (Z.of_nat i - 1)) with (i - 1)%nat by lia.
    cbn [sub neg add]. unfold gt. cbn [lt].
    assert (Hd : Qred (nth i qs 0 + - nth (i - 1) qs 0) == nth i qs 0 - nth (i - 1) qs 0)
      by (rewrite Qred_correct; lra).
    destruct (Qlt_bool 0 (Qred (nth i qs 0 + - nth (i - 1) qs 0))) eqn:E.
    + apply Qlt_bool_iff in E. rewrite Hd in E.
      destruct (IH (Qred (g + Qred (nth i qs 0 + - nth (i - 1) qs 0))) l)
        as (g' & l' & Hf & Hg' & Hiff).
      { rewrite Qred_correct, Hd. lra. }
      { exact Hl. }
      rewrite Qred_correct, Hd in Hg', Hiff.
      exists g', l'. split; [exact Hf|]. split; [lra|].
      split; [intros Heq; exfalso; lra | inversion 1; subst; exfalso; lra].
    + apply Qlt_bool_false in E. rewrite Hd in E.
      destruct (IH g (Qred (l + - Qred (nth i qs 0 + - nth (i - 1) qs 0))))
        as (g' & l' & Hf & Hg' & Hiff).
      { exact Hg. }
      { rewrite Qred_correct, Hd. lra. }
      exists g', l'. split; [exact Hf|]. split; [exact Hg'|].
      rewrite Hiff. split; [intros HF; now constructor | now inversion 1].
Qed.

Lemma rsi_value_zero (g l : Q) :
  0 <= g -> 0 <= l ->
  exists r,
    (let avgGain := (Num g / Num (inject_Z 14))%js in
     let avgLoss := (Num l / Num (inject_Z 14))%js in
     if (avgLoss === Num 0)%js then Num 100
     else (Num 100 - Num 100 / (Num 1 + avgGain / avgLoss))%js) = Num r
    /\ (r == 100 <-> l == 0)
    /\ (r == 0 <-> g == 0 /\ 0 < l).
Proof.
  intros Hg Hl. cbv zeta.
  rewrite !div_Num by (apply inject_Z_nonzero; lia).
  cbn [strict_eq].
  assert (Hal : Qred (l / inject_Z 14) == l * (1 # 14)) by (now rewrite Qred_correct).
  assert (Hag : Qred (g / inject_Z 14) == g * (1 # 14)) by (now rewrite Qred_correct).
  destruct (Qeq_bool (Qred (l / inject_Z 14)) 0) eqn:E.
  - apply Qeq_bool_eq in E. rewrite Hal in E.
    exists 100. split; [reflexivity|].
    split; [split; intros; lra|].
    split; [intros H; exfalso; lra | intros [_ H]; lra].
  - apply Qeq_bool_neq in E. rewrite Hal in E.
    assert (Hlpos : 0 < l) by (destruct (Qlt_le_dec 0 l); [assumption | exfalso; apply E; lra]).
    rewrite div_Num by (rewrite Hal; exact E).
    cbn [add].
    set (rs := Qred (Qred (g / inject_Z 14) / Qred (l / inject_Z 14))).
    assert (Hrs : rs * (l * (1 # 14)) == g * (1 # 14)).
    { unfold rs. rewrite Qred_correct, Hal, Hag.
      rewrite Qmult_comm. apply Qmult_div_r. lra. }
    assert (Hrs0 : 0 <= rs) by nra.
    rewrite div_Num by (rewrite Qred_correct; lra).
    cbn [sub neg add].
    set (x := Qred (1 + rs)). assert (Hx : x == 1 + rs) by (unfold x; apply Qred_correct).
    set (y := Qred (100 / x)).
    assert (Hy : x * y == 100).
    { unfold y. rewrite Qred_correct. apply Qmult_div_r. lra. }
    assert (Hzero : rs == 0 <-> g == 0).
    { split; intros H.
      - rewrite H in Hrs. lra.
      - rewrite H in Hrs. destruct (Qeq_dec rs 0) as [|Hn]; [assumption|].
        exfalso. assert (0 < rs) by (destruct (Qlt_le_dec 0 rs); [assumption | exfalso; apply Hn; lra]).
        nra. }
    eexists. split; [reflexivity|]. rewrite Qred_correct.
    split; [split; intros H; [exfalso; nra | exfalso; lra]|].
    rewrite <- Hzero. split.
    + intros H. assert (Hy100 : y == 100) by lra. rewrite Hy100 in Hy.
      split; [lra | exact Hlpos].
    + intros [H _]. rewrite Hx, H in Hy. lra.
Qed.

Lemma Exists_negative (ds : list Q) :
  ~ Forall (fun d => 0 <= d) ds <-> Exists (fun d => d < 0) ds.
Proof.
  rewrite <- Exists_Forall_neg.
  - split; apply Exists_impl; intros d H; [now apply Qnot_le_lt | now apply Qlt_not_le].
  - intros d. destruct (Qlt_le_dec d 0); [right; now apply Qlt_not_le | now left].
Qed.

(** RSI(14) on at least 15 finite prices, at both ends of its scale. *)
Lemma calculateRSI_extremes (prices : list Q) :
  (15 <= length prices)%nat ->
  exists r : Q,
    calculateRSI (map Num prices) 14 = Num r
    /\ (r == 100 <-> Forall (fun d => 0 <= d) (sampled_deltas prices))
    /\ (r == 0 <-> Forall (fun d => d <= 0) (sampled_deltas prices)
                   /\ Exists (fun d => d < 0) (sampled_deltas prices)).
Proof.
  intros Hlen. unfold calculateRSI. rewrite len_map.
  destruct (Z.ltb_spec (len prices) (14 + 1)) as [Hlt|_]; [unfold len in Hlt; lia|].
  replace (len prices - 14)%Z with (Z.of_nat (length prices - 14)) by (unfold len; lia).
  replace (len prices) with (Z.of_nat ((length prices - 14) + 14)) by (unfold len; lia).
  rewrite range_of_nat.
  pose proof (sampled_indices_ok prices Hlen) as Hix.
  destruct (rsi_loop prices _ Hix 0 0 (Qle_refl 0) (Qle_refl 0))
    as (g & l & Hf & Hg & Hl & Hloss).
  destruct (rsi_loop_gains prices _ Hix 0 0 (Qle_refl 0) (Qle_refl 0))
    as (g' & l' & Hf' & _ & Hgain).
  cbv zeta in Hf, Hf' |- *. rewrite Hf in Hf'. injection Hf' as <- <-.
  rewrite Hf.
  destruct (rsi_value_zero g l Hg Hl) as (r & Hr & H100 & H0). cbv zeta in Hr.
  exists r. split; [exact Hr|].
  unfold sampled_deltas. rewrite !Forall_map.
  split; [now rewrite H100, Hloss|].
  rewrite H0, Hgain.
  rewrite <- (Exists_negative (map _ _)), Forall_map, <- Hloss.
  split; intros [H1 H2]; (split; [exact H1|]); [intros E; lra | ].
  destruct (Qlt_le_dec 0 l); [assumption | exfalso; apply H2; lra].
Qed.



(* ================================================================== *)
(** ** The signals of an evaluation *)
(* ================================================================== *)

Lemma evaluate_signals (now : Z) (symbol : string) (ohlcv : list Candle.t) :
  MarketSentiment.signals (evaluate now symbol ohlcv)
  = if (len ohlcv <? 50)%Z then [] else generateSignals (indicatorsOf symbol ohlcv).
Proof. unfold evaluate, indicatorsOf. now destruct (len ohlcv <? 50)%Z. Qed.

Lemma indicator_rsiBlock (x : number) :
  map Signal.indicator (rsiBlock x) = ["RSI (14)"%string].
Proof. unfold rsiBlock. split_cases; reflexivity. Qed.

Lemma indicator_macdBlock (x : Macd.t) :
  map Signal.indicator (macdBlock x) = ["MACD"%string].
Proof. unfold macdBlock. split_cases; reflexivity. Qed.

Lemma indicator_maBlock (x y z : number) :
  map Signal.indicator (maBlock x y z) = ["MA Alignment"%string].
Proof. unfold maBlock. split_cases; reflexivity. Qed.

Lemma indicator_bollingerBlock (x : number) (b : Bands.t) :
  map Signal.indicator (bollingerBlock x b) = ["Bollinger Bands"%string].
Proof. unfold bollingerBlock. split_cases; reflexivity. Qed.

Lemma generateSignals_indicators (indicators : TechnicalIndicators.t) :
  map Signal.indicator (generateSignals indicators)
  = ["RSI (14)"; "MACD"; "MA Alignment"; "Bollinger Bands"]%string
    ++ (if (TechnicalIndicators.volumeRatio indicators >? Num 2)%js
        then ["Volume"%string] else [])
    ++ (if (TechnicalIndicators.fundingRate indicators <? Num (-0.01))%js
           || (TechnicalIndicators.fundingRate indicators >? Num 0.05)%js
        then ["Funding Rate"%string] else []).
Proof.
  rewrite generateSignals_blocks, !map_app.
  rewrite indicator_rsiBlock, indicator_macdBlock, indicator_maBlock,
    indicator_bollingerBlock.
  unfold volumeBlock, fundingBlock.
  destruct (TechnicalIndicators.volumeRatio indicators >? Num 2)%js;
    destruct (TechnicalIndicators.fundingRate indicators <? Num (-0.01))%js;
    destruct (TechnicalIndicators.fundingRate indicators >? Num 0.05)%js;
    reflexivity.
Qed.

(** X17.  The generated signals come in a fixed order: the RSI, MACD, MA
    Alignment and Bollinger Bands entries always, then the Volume entry when
    the volume ratio exceeds 2, then the Funding Rate entry when the funding
    rate is outside [-0.01, 0.05]; between four and six entries in all. *)
Theorem generateSignals_order (indicators : TechnicalIndicators.t) :
  map Signal.indicator (generateSignals indicators)
  = ["RSI (14)"; "MACD"; "MA Alignment"; "Bollinger Bands"]%string
    ++ (if (TechnicalIndicators.volumeRatio indicators >? Num 2)%js
        then ["Volume"%string] else [])
    ++ (if (TechnicalIndicators.fundingRate indicators <? Num (-0.01))%js
           || (TechnicalIndicators.fundingRate indicators >? Num 0.05)%js
        then ["Funding Rate"%string] else [])
  /\ (4 <= length (generateSignals indicators) <= 6)%nat.
Proof.
  split; [apply generateSignals_indicators|].
  rewrite <- (length_map Signal.indicator), generateSignals_indicators.
  destruct (_ >? _)%js; destruct (_ || _); simpl; lia.
Qed.

Lemma signal_points_bound (signals : list Signal.t) :
  - (20 * inject_Z (Z.of_nat (length signals))) <= Qsum (map signal_points signals)
  /\ Qsum (map signal_points signals) <= 20 * inject_Z (Z.of_nat (length signals)).
Proof.
  induction signals as [|s signals [IH1 IH2]].
  - change (- (20 * 0) <= 0 /\ 0 <= 20 * 0). lra.
  - change (Qsum (map signal_points (s :: signals)))
      with (signal_points s + Qsum (map signal_points signals)).
    replace (Z.of_nat (length (s :: signals))) with (1 + Z.of_nat (length signals))%Z
      by (simpl length; lia).
    rewrite inject_Z_plus. change (inject_Z 1) with 1.
    unfold signal_points at 1 3. destruct (Signal.signal s); lra.
Qed.

(** X18.  An evaluation never carries a Funding Rate signal, its funding
    rate being the constant 0: its signals are the four fixed entries and at
    most the Volume entry (none at all on fewer than 50 candles).  With at
    most five signals the first bound of the base score never bites: the base
    score of an evaluation is the plain sum of +20 per BUY and -20 per SELL
    signal. *)
Theorem evaluate_signals_shape (now : Z) (symbol : string) (ohlcv : list Candle.t) :
  let signals := MarketSentiment.signals (evaluate now symbol ohlcv) in
  about "Funding Rate" signals = []
  /\ ((len ohlcv < 50)%Z -> signals = [])
  /\ ((50 <= len ohlcv)%Z ->
      exists volume,
        map Signal.indicator signals
        = ["RSI (14)"; "MACD"; "MA Alignment"; "Bollinger Bands"]%string ++ volume
        /\ (volume = [] \/ volume = ["Volume"%string]))
  /\ exists base : Q,
       calculateSentimentScore signals = Num base
       /\ base == Qsum (map signal_points signals).
Proof.
  intros signals. unfold signals. rewrite evaluate_signals.
  assert (Hshape : forall ind, TechnicalIndicators.fundingRate ind = Num 0 ->
            exists volume,
              map Signal.indicator (generateSignals ind)
              = ["RSI (14)"; "MACD"; "MA Alignment"; "Bollinger Bands"]%string ++ volume
              /\ (volume = [] \/ volume = ["Volume"%string])).
  { intros ind Hf. rewrite generateSignals_indicators, Hf.
    change ((Num 0 <? Num (-0.01))%js || (Num 0 >? Num 0.05)%js) with false.
    cbv iota. rewrite app_nil_r.
    destruct (_ >? _)%js; eexists; split; try reflexivity; tauto. }
  assert (Hlen : (length (if (len ohlcv <? 50)%Z then []
                          else generateSignals (indicatorsOf symbol ohlcv)) <= 5)%nat).
  { destruct (len ohlcv <? 50)%Z; [simpl; lia|].
    destruct (Hshape (indicatorsOf symbol ohlcv) eq_refl) as (v & Hv & Hv').
    rewrite <- (length_map Signal.indicator), Hv, length_app.
    destruct Hv' as [-> | ->]; simpl; lia. }
  split; [|split; [|split]].
  - destruct (len ohlcv <? 50)%Z; [reflexivity|].
    rewrite about_generateSignals. reflexivity.
  - intros H. destruct (Z.ltb_spec (len ohlcv) 50); [reflexivity | lia].
  - intros H. destruct (Z.ltb_spec (len ohlcv) 50); [lia|].
    now apply Hshape.
  - set (sigs := if (len ohlcv <? 50)%Z then []
                 else generateSignals (indicatorsOf symbol ohlcv)) in *.
    destruct (aggregate_Num sigs [] (Forall_nil _)) as (base & _ & Hb & Hbase & _).
    exists base. split; [exact Hb|]. rewrite Hbase.
    destruct (signal_points_bound sigs) as [H1 H2].
    assert (Hn : inject_Z (Z.of_nat (length sigs)) <= 5).
    { change 5 with (inject_Z 5). rewrite <- Zle_Qle. lia. }
    unfold Qclamp. rewrite Q.min_r by lra. apply Q.max_r. lra.
Qed.

Lemma zero_numbers (xs : list number) :
  Forall (fun x => same x (Num 0)) xs ->
  exists qs : list Q, xs = map Num qs /\ Forall (fun q => q == 0) qs.
Proof.
  induction 1 as [|x xs Hx _ (qs & -> & Hqs)].
  - exists []. split; [reflexivity | constructor].
  - destruct x as [| |q|]; try contradiction.
    exists (q :: qs). split; [reflexivity | now constructor].
Qed.

Lemma Qsum_zero (qs : list Q) : Forall (fun q => q == 0) qs -> Qsum qs == 0.
Proof.
  induction 1 as [|q qs Hq _ IH]; [reflexivity|].
  change (Qsum (q :: qs)) with (q + Qsum qs). rewrite Hq, IH. lra.
Qed.

Lemma last_in_last_elements {A} (p : nat) (xs : list A) (d : A) :
  (1 <= p)%nat -> xs <> [] -> In (last xs d) (last_elements p xs).
Proof.
  intros Hp Hne. rewrite last_elements_skipn.
  assert (Hl : (0 < length xs)%nat) by (destruct xs; [contradiction | simpl; lia]).
  rewrite <- (firstn_skipn (length xs - p) xs) at 1.
  rewrite last_app_r.
  - apply last_In. intros E. apply (f_equal (@length A)) in E.
    rewrite length_skipn in E. simpl in E. lia.
  - intros E. apply (f_equal (@length A)) in E.
    rewrite length_skipn in E. simpl in E. lia.
Qed.

(** X19.  Division by a zero average volume raises nothing and yields no
    signal: on at least 50 candles whose last 20 volumes are all zero, the
    volume ratio is not a number and the evaluation carries no Volume
    entry. *)
Theorem zero_volume_no_signal (now : Z) (symbol : string) (ohlcv : list Candle.t) :
  (50 <= len ohlcv)%Z ->
  Forall (fun c => same (Candle.volume c) (Num 0)) (last_elements 20 ohlcv) ->
  TechnicalIndicators.volumeRatio (indicatorsOf symbol ohlcv) = NaN
  /\ about "Volume" (MarketSentiment.signals (evaluate now symbol ohlcv)) = [].
Proof.
  intros Hlen Hzero.
  assert (Hratio : TechnicalIndicators.volumeRatio (indicatorsOf symbol ohlcv) = NaN).
  { unfold indicatorsOf. cbv zeta. cbn [TechnicalIndicators.volumeRatio].
    assert (Hne : ohlcv <> []) by (intros ->; unfold len in Hlen; simpl in Hlen; lia).
    (* the average of the last 20 volumes *)
    unfold calculateSMA at 1. rewrite len_map.
    destruct (Z.ltb_spec (len ohlcv) 20); [lia|].
    rewrite slice_map, (slice_last _ 20) by lia. change (Z.to_nat 20) with 20%nat.
    destruct (zero_numbers (map Candle.volume (last_elements 20 ohlcv))) as (qs & -> & Hqs).
    { now apply Forall_map. }
    destruct (sum_Num qs) as (s & -> & Hs).
    rewrite div_Num by (apply inject_Z_nonzero; lia).
    (* the last volume *)
    assert (Hlast : same (Candle.volume (last ohlcv (Candle.mk 0 NaN NaN NaN NaN NaN))) (Num 0)).
    { rewrite Forall_forall in Hzero. apply Hzero.
      apply last_in_last_elements; [lia | exact Hne]. }
    assert (Hget : (map Candle.volume ohlcv).[len ohlcv - 1]%js
                   = Candle.volume (last ohlcv (Candle.mk 0 NaN NaN NaN NaN NaN))).
    { unfold get. destruct (Z.ltb_spec (len ohlcv - 1) 0); [lia|].
      replace (Z.to_nat (len ohlcv - 1)) with (length ohlcv - 1)%nat by (unfold len; lia).
      rewrite (nth_indep _ NaN (Candle.volume (Candle.mk 0 NaN NaN NaN NaN NaN)))
        by (rewrite length_map; unfold len in Hlen; lia).
      rewrite map_nth. f_equal. apply nth_last. }
    rewrite Hget.
    destruct (Candle.volume (last ohlcv _)) as [| |v|]; try contradiction.
    cbn [same] in Hlast.
    assert (Hz : Qred (s / inject_Z 20) == 0).
    { rewrite Qred_correct, Hs, (Qsum_zero qs Hqs). reflexivity. }
    unfold div, signed_inf.
    apply Qeq_alt in Hz. rewrite Hz. apply Qeq_alt in Hlast. now rewrite Hlast. }
  split; [exact Hratio|].
  rewrite evaluate_signals. destruct (Z.ltb_spec (len ohlcv) 50); [lia|].
  rewrite about_generateSignals, Hratio. reflexivity.
Qed.

(* ================================================================== *)
(** ** The weight of the patterns and the classification *)
(* ================================================================== *)

Lemma patternScore_range (prices highs lows : list number) :
  exists d : Q,
    patternScore (detectPatterns prices highs lows) = Num d /\ -43 <= d <= 58.
Proof.
  rewrite detectPatterns_blocks.
  unfold crossBlock, trendBlock, supportBlock, resistanceBlock, uptrendBlock.
  cbv zeta.
  destruct (len prices >=? 200)%Z;
    [destruct (crossesAbove prices) eqn:E1, (crossesBelow prices) eqn:E2;
     [destruct (crosses_exclusive prices E1 E2)| | |]|];
    split_cases;
    (eexists; split; [vm_compute; reflexivity | split; unfold Qle; simpl; lia]).
Qed.

(** X20.  Whatever the series, the patterns that the detector emits move
    the score by a finite amount between -43 and +58: the bearish entries
    weigh at most 17 + 14 + 12, the bullish ones at most 17 + 14 + 12 + 15,
    the Uptrend Structure entry having no bearish counterpart. *)
Theorem pattern_influence_range (prices highs lows : list number) :
  exists d : Q,
    patternScore (detectPatterns prices highs lows) = Num d
    /\ -43 <= d <= 58
    /\ d == Qsum (map pattern_points (detectPatterns prices highs lows)).
Proof.
  destruct (patternScore_range prices highs lows) as (d & Hd & Hb).
  exists d. split; [exact Hd|]. split; [exact Hb|].
  destruct (patternScore_loop _ (detectPatterns_confidence prices highs lows) 0)
    as (r & Hr & Hq).
  unfold patternScore in Hd. rewrite Hr in Hd. injection Hd as <-. rewrite Hq. lra.
Qed.

Lemma evaluate_overall (now : Z) (symbol : string) (ohlcv : list Candle.t) :
  MarketSentiment.overall (evaluate now symbol ohlcv)
  = classify (MarketSentiment.score (evaluate now symbol ohlcv)).
Proof.
  unfold evaluate. destruct (len ohlcv <? 50)%Z; [reflexivity|].
  cbv zeta. cbn [MarketSentiment.overall MarketSentiment.score]. reflexivity.
Qed.

(** X21.  The classification of every evaluation agrees with its score, a
    finite value: STRONG_BUY exactly from 60 upwards, BUY from 20 to below
    60, NEUTRAL strictly between -20 and 20, SELL from above -60 to -20,
    STRONG_SELL exactly from -60 downwards. *)
Theorem classification_bands (now : Z) (symbol : string) (ohlcv : list Candle.t) :
  let result := evaluate now symbol ohlcv in
  exists f : Q,
    MarketSentiment.score result = Num f
    /\ (MarketSentiment.overall result = Overall.STRONG_BUY <-> 60 <= f)
    /\ (MarketSentiment.overall result = Overall.BUY <-> 20 <= f < 60)
    /\ (MarketSentiment.overall result = Overall.NEUTRAL <-> -20 < f < 20)
    /\ (MarketSentiment.overall result = Overall.SELL <-> -60 < f <= -20)
    /\ (MarketSentiment.overall result = Overall.STRONG_SELL <-> f <= -60).
Proof.
  intros result. unfold result. rewrite evaluate_overall.
  destruct (evaluate_bounded now symbol ohlcv) as (f & -> & _).
  exists f. split; [reflexivity|].
  unfold classify, ge. cbn [le].
  destruct (Qle_bool 60 f) eqn:E1;
    [apply Qle_bool_iff in E1
    |assert (f < 60) by (apply Qlt_bool_iff; unfold Qlt_bool; now rewrite E1);
     destruct (Qle_bool 20 f) eqn:E2;
     [apply Qle_bool_iff in E2
     |assert (f < 20) by (apply Qlt_bool_iff; unfold Qlt_bool; now rewrite E2);
      destruct (Qle_bool f (-60)) eqn:E3;
      [apply Qle_bool_iff in E3
      |assert (-60 < f) by (apply Qlt_bool_iff; unfold Qlt_bool; now rewrite E3);
       destruct (Qle_bool f (-20)) eqn:E4;
       [apply Qle_bool_iff in E4
       |assert (-20 < f) by (apply Qlt_bool_iff; unfold Qlt_bool; now rewrite E4)]]]];
    repeat split; intros; first [reflexivity | discriminate | lra].
Qed.

(* ================================================================== *)
(** ** A flat market *)
(* ================================================================== *)

Lemma flat_series (c v : Q) (ohlcv : list Candle.t) :
  flat c v ohlcv ->
  map Candle.close ohlcv = map Num (repeat c (length ohlcv))
  /\ map Candle.high ohlcv = map Num (repeat c (length ohlcv))
  /\ map Candle.low ohlcv = map Num (repeat c (length ohlcv))
  /\ map Candle.volume ohlcv = map Num (repeat v (length ohlcv)).
Proof.
  induction 1 as [|k l (Hc & Hh & Hl & Hv) _ (IHc & IHh & IHl & IHv)].
  - now repeat split.
  - cbn [map length repeat]. rewrite Hc, Hh, Hl, Hv, IHc, IHh, IHl, IHv.
    now repeat split.
Qed.

Lemma In_constant (c x : Q) (n : nat) : In x (repeat c n) -> c <= x <= c.
Proof. intros H. apply repeat_spec in H. subst. split; apply Qle_refl. Qed.

Lemma constant_nonempty (c : Q) (n : nat) : (1 <= n)%nat -> repeat c n <> [].
Proof. destruct n; [lia | discriminate]. Qed.

Lemma constant_sma (c : Q) (n : nat) (p : Z) :
  (1 <= p)%Z -> (1 <= n)%nat ->
  exists r, calculateSMA (map Num (repeat c n)) p = Num r /\ r == c.
Proof.
  intros Hp Hn.
  destruct (calculateSMA_in_range (repeat c n) p c c Hp (constant_nonempty c n Hn)
              (fun x => In_constant c x n)) as (r & Hr & H1).
  exists r. split; [exact Hr | lra].
Qed.

Lemma constant_ema (c : Q) (n : nat) (p : Z) :
  (1 <= p)%Z -> (1 <= n)%nat ->
  exists r, calculateEMA (map Num (repeat c n)) p = Num r /\ r == c.
Proof.
  intros Hp Hn.
  destruct (calculateEMA_in_range (repeat c n) p c c Hp (constant_nonempty c n Hn)
              (fun x => In_constant c x n)) as (r & Hr & H1).
  exists r. split; [exact Hr | lra].
Qed.

Lemma constant_nth (c : Q) (n i : nat) : (i < n)%nat -> nth i (repeat c n) 0 = c.
Proof.
  intros Hi. rewrite (nth_indep _ 0 c) by (rewrite repeat_length; lia).
  apply nth_repeat.
Qed.

Lemma constant_last (c : Q) (n : nat) :
  (1 <= n)%nat -> (map Num (repeat c n)).[len (map Num (repeat c n)) - 1]%js = Num c.
Proof.
  intros Hn. rewrite len_map. unfold len. rewrite repeat_length.
  rewrite get_map_Num by (unfold len; rewrite repeat_length; lia).
  f_equal. apply constant_nth. lia.
Qed.

Lemma constant_rsi (c : Q) (n : nat) :
  (15 <= n)%nat ->
  exists r, calculateRSI (map Num (repeat c n)) 14 = Num r /\ r == 100.
Proof.
  intros Hn.
  destruct (calculateRSI_extremes (repeat c n)) as (r & Hr & H100 & _);
    [rewrite repeat_length; lia|].
  exists r. split; [exact Hr|]. apply H100.
  unfold sampled_deltas. rewrite Forall_map, Forall_forall. intros i Hi.
  apply in_seq in Hi. rewrite repeat_length in Hi.
  rewrite !constant_nth by lia. lra.
Qed.

Lemma constant_macd (c : Q) (n : nat) :
  (1 <= n)%nat ->
  exists m s h : Q,
    calculateMACD (map Num (repeat c n)) = Macd.mk (Num m) (Num s) (Num h)
    /\ m == 0 /\ s == m * 0.8 /\ h == m * 0.2.
Proof.
  intros Hn. destruct (calculateMACD_Num (repeat c n)) as (m & s & h & E & Hs & Hh).
  exists m, s, h. split; [exact E|]. split; [|now split].
  apply (f_equal Macd.macd) in E. unfold calculateMACD in E. cbv zeta in E.
  cbn [Macd.macd] in E.
  destruct (constant_ema c n 12 ltac:(lia) Hn) as (e12 & H12 & Q12).
  destruct (constant_ema c n 26 ltac:(lia) Hn) as (e26 & H26 & Q26).
  rewrite H12, H26 in E. cbn [sub neg add] in E. injection E as <-.
  rewrite Qred_correct. lra.
Qed.

Lemma squares_zero (w : list Q) (m : Q) :
  Forall (fun x => x == m) w ->
  exists sq : list Q,
    map (fun p => Math_pow2 (p - Num m)%js) (map Num w) = map Num sq
    /\ Forall (fun t => t == 0) sq.
Proof.
  induction 1 as [|x w Hx _ (sq & IH & Hsq)].
  - exists []. split; [reflexivity | constructor].
  - cbn [map]. rewrite IH. unfold Math_pow2. cbn [sub neg add mul].
    eexists (_ :: sq). split; [reflexivity|]. constructor; [|exact Hsq].
    rewrite !Qred_correct, Hx. ring.
Qed.

(** On a constant series the variance is 0 and the three bands coincide. *)
Lemma constant_bollinger (c : Q) (n : nat) :
  Math_sqrt (Num 0) = Num 0 -> (1 <= n)%nat ->
  exists upper middle lower : Q,
    calculateBollingerBands (map Num (repeat c n)) 20
    = Bands.mk (Num upper) (Num middle) (Num lower)
    /\ upper == c /\ middle == c /\ lower == c.
Proof.
  intros Hsqrt Hn. unfold calculateBollingerBands.
  destruct (constant_sma c n 20 ltac:(lia) Hn) as (m & Hm & Qm). rewrite Hm.
  rewrite slice_map.
  destruct (squares_zero (slice (repeat c n) (- (20)) None) m) as (sq & -> & Hsq).
  { rewrite Forall_forall. intros x Hx. apply slice_In, repeat_spec in Hx.
    subst x. now symmetry. }
  destruct (sum_Num sq) as (s & -> & Hs).
  rewrite div_Num by (apply inject_Z_nonzero; lia).
  assert (E : Qred (s / inject_Z 20) = 0).
  { rewrite (Qred_complete _ 0); [reflexivity|].
    rewrite Hs, (Qsum_zero sq Hsq). reflexivity. }
  rewrite E, Hsqrt. cbn [mul add sub neg].
  eexists _, m, _. split; [reflexivity|].
  rewrite !Qred_correct. repeat split; lra.
Qed.

Lemma constant_volume_ratio (v : Q) (n : nat) :
  0 < v -> (1 <= n)%nat ->
  exists x : Q,
    ((map Num (repeat v n)).[len (map Num (repeat v n)) - 1]
     / calculateSMA (map Num (repeat v n)) 20)%js = Num x
    /\ x == 1.
Proof.
  intros Hv Hn. rewrite constant_last by exact Hn.
  destruct (constant_sma v n 20 ltac:(lia) Hn) as (r & -> & Hr).
  rewrite div_Num by (intros E; rewrite Hr in E; lra).
  eexists. split; [reflexivity|]. rewrite Qred_correct, Hr. field. lra.
Qed.

Lemma extremes_constant (c : Q) (xs : list number) :
  xs <> [] -> Forall (eq (Num c)) xs -> Math_min xs = Num c /\ Math_max xs = Num c.
Proof.
  intros Hne H. destruct H as [|x xs <- H]; [contradiction|]. clear Hne.
  unfold Math_min, Math_max. cbn [fold_left].
  change (min2 Infinity (Num c)) with (Num c).
  change (max2 NegInfinity (Num c)) with (Num c).
  induction H as [|y ys <- _ IH]; [now split|].
  cbn [fold_left].
  assert (Emin : min2 (Num c) (Num c) = Num c)
    by (unfold min2; cbn [lt]; now destruct (Qlt_bool c c)).
  assert (Emax : max2 (Num c) (Num c) = Num c)
    by (unfold max2; cbn [lt]; now destruct (Qlt_bool c c)).
  rewrite Emin, Emax. exact IH.
Qed.

Lemma constant_slice (c : Q) (n : nat) (p : Z) :
  (1 <= p)%Z -> (1 <= n)%nat ->
  slice (map Num (repeat c n)) (- p) None <> []
  /\ Forall (eq (Num c)) (slice (map Num (repeat c n)) (- p) None).
Proof.
  intros Hp Hn. split.
  - intros E. apply (f_equal (@length number)) in E.
    rewrite (slice_last _ p Hp), length_last_elements, length_map, repeat_length in E.
    simpl in E. lia.
  - rewrite Forall_forall. intros x Hx. apply slice_In, in_map_iff in Hx.
    destruct Hx as (q & <- & Hq). apply repeat_spec in Hq. now subst.
Qed.

Lemma lt_same (a b : Q) : a == b -> (Num a <? Num b)%js = false.
Proof. intros E. apply Qlt_bool_false. lra. Qed.

(** The patterns of a flat market: the price tests its support and its
    resistance at once, and nothing else. *)
Lemma flat_patterns (c : Q) (n : nat) :
  0 < c -> (5 <= n)%nat ->
  exists support resistance : string,
    detectPatterns (map Num (repeat c n)) (map Num (repeat c n)) (map Num (repeat c n))
    = [Pattern.mk "Support Test" bullish (Num 60) support;
       Pattern.mk "Resistance Test" bearish (Num 60) resistance].
Proof.
  intros Hc Hn. rewrite detectPatterns_blocks.
  destruct (constant_sma c n 50 ltac:(lia) ltac:(lia)) as (s50 & H50 & Q50).
  destruct (constant_sma c n 200 ltac:(lia) ltac:(lia)) as (s200 & H200 & Q200).
  assert (Hcross : crossBlock (map Num (repeat c n)) = []).
  { unfold crossBlock, crossesAbove, crossesBelow. rewrite H50, H200.
    unfold gt. rewrite !lt_same by lra. rewrite !andb_false_r.
    now destruct (len _ >=? 200)%Z. }
  assert (Htrend : trendBlock (map Num (repeat c n)) = []).
  { unfold trendBlock. cbv zeta. rewrite constant_last by lia. rewrite H50, H200.
    unfold gt. rewrite !lt_same by lra. reflexivity. }
  destruct (constant_slice c n 20 ltac:(lia) ltac:(lia)) as (Hne & Hall).
  destruct (extremes_constant c (slice (map Num (repeat c n)) (-20) None) Hne Hall)
    as (Hmin & Hmax).
  assert (Hsupport : exists d,
            supportBlock (map Num (repeat c n)) (map Num (repeat c n))
            = [Pattern.mk "Support Test" bullish (Num 60) d]).
  { unfold supportBlock. cbv zeta. rewrite constant_last by lia. rewrite Hmin.
    cbn [mul].
    replace (Num c <=? Num (Qred (c * 1.02)))%js with true; [eexists; reflexivity|].
    symmetry. apply le_Num. rewrite Qred_correct. lra. }
  assert (Hresistance : exists d,
            resistanceBlock (map Num (repeat c n)) (map Num (repeat c n))
            = [Pattern.mk "Resistance Test" bearish (Num 60) d]).
  { unfold resistanceBlock. cbv zeta. rewrite constant_last by lia. rewrite Hmax.
    cbn [mul]. unfold ge.
    replace (Num (Qred (c * 0.98)) <=? Num c)%js with true; [eexists; reflexivity|].
    symmetry. apply le_Num. rewrite Qred_correct. lra. }
  assert (Huptrend : uptrendBlock (map Num (repeat c n)) (map Num (repeat c n)) = []).
  { unfold uptrendBlock.
    rewrite higherFlags_rising by (rewrite ?repeat_length; lia).
    destruct (five_elements (repeat c n)) as (x1 & x2 & x3 & x4 & x5 & E);
      [rewrite repeat_length; lia|].
    assert (Hin : forall x, In x [x1; x2; x3; x4; x5] -> x = c).
    { intros x Hx. rewrite <- E in Hx. apply In_last_elements in Hx.
      now apply repeat_spec in Hx. }
    rewrite E. rewrite (Hin x1), (Hin x2) by (simpl; tauto).
    cbn [rising]. replace (Qlt_bool c c) with false; [reflexivity|].
    symmetry. apply Qlt_bool_false. lra. }
  destruct Hsupport as (d1 & Hsupport). destruct Hresistance as (d2 & Hresistance).
  rewrite Hcross, Htrend, Hsupport, Hresistance, Huptrend. now exists d1, d2.
Qed.

(** The signals of a flat market: its RSI is 100 and reads as overbought,
    while the bands have closed on the price, which reads as oversold. *)
Lemma flat_signals (symbol : string) (ohlcv : list Candle.t) (c v : Q) :
  Math_sqrt (Num 0) = Num 0 ->
  (50 <= len ohlcv)%Z -> 0 < c -> 0 < v -> flat c v ohlcv ->
  map (fun s => (Signal.indicator s, Signal.signal s))
    (generateSignals (indicatorsOf symbol ohlcv))
  = [("RSI (14)", SELL); ("MACD", NEUTRAL); ("MA Alignment", NEUTRAL);
     ("Bollinger Bands", BUY)]%string.
Proof.
  intros Hsqrt Hlen Hc Hv Hflat. unfold len in Hlen.
  destruct (flat_series c v ohlcv Hflat) as (Ecl & _ & _ & Evol).
  rewrite generateSignals_blocks. unfold indicatorsOf. cbv zeta.
  cbn [TechnicalIndicators.rsi14 TechnicalIndicators.macd TechnicalIndicators.price
       TechnicalIndicators.sma20 TechnicalIndicators.sma50
       TechnicalIndicators.bollingerBands TechnicalIndicators.volumeRatio
       TechnicalIndicators.fundingRate].
  rewrite Ecl, Evol. set (n := length ohlcv) in *.
  rewrite constant_last by lia.
  destruct (constant_rsi c n ltac:(lia)) as (r & -> & Hr).
  destruct (constant_macd c n ltac:(lia)) as (m & s & h & -> & Hm & Hs & Hh).
  destruct (constant_sma c n 20 ltac:(lia) ltac:(lia)) as (s20 & -> & Q20).
  destruct (constant_sma c n 50 ltac:(lia) ltac:(lia)) as (s50 & -> & Q50).
  destruct (constant_bollinger c n Hsqrt ltac:(lia)) as (bu & bm & bl & -> & Qu & Qm & Ql).
  destruct (constant_volume_ratio v n Hv ltac:(lia)) as (x & -> & Hx).
  destruct (macdBlock_Num m s h Hs Hh) as (e & -> & Hind & _ & _ & Hneutral).
  assert (E1 : rsiBlock (Num r)
               = [Signal.mk "RSI (14)" SELL (Num r) "Overbought - potential pullback"]).
  { unfold rsiBlock, gt.
    replace (Num r <? Num 30)%js with false by (symmetry; apply Qlt_bool_false; lra).
    replace (Num 70 <? Num r)%js with true by (symmetry; apply lt_Num; lra).
    reflexivity. }
  assert (E2 : maBlock (Num c) (Num s20) (Num s50)
               = [Signal.mk "MA Alignment" NEUTRAL (Num s20) "Mixed MA signals"]).
  { unfold maBlock, gt. rewrite (lt_same s20 c), (lt_same c s20) by lra. reflexivity. }
  assert (E3 : bollingerBlock (Num c) (Bands.mk (Num bu) (Num bm) (Num bl))
               = [Signal.mk "Bollinger Bands" BUY (Num c) "Price at lower band - oversold"]).
  { unfold bollingerBlock. cbn [Bands.lower].
    replace (Num c <=? Num bl)%js with true by (symmetry; apply le_Num; lra).
    reflexivity. }
  assert (E4 : volumeBlock (Num c) (Num s20) (Num x) = []).
  { unfold volumeBlock, gt.
    replace (Num 2 <? Num x)%js with false by (symmetry; apply Qlt_bool_false; lra).
    reflexivity. }
  rewrite E1, E2, E3, E4. cbn [app map Signal.indicator Signal.signal].
  rewrite Hind, (proj2 Hneutral Hm). reflexivity.
Qed.

Lemma evaluate_score (now : Z) (symbol : string) (ohlcv : list Candle.t) :
  MarketSentiment.score (evaluate now symbol ohlcv)
  = if (len ohlcv <? 50)%Z then Num 0
    else finalScore (calculateSentimentScore (generateSignals (indicatorsOf symbol ohlcv)))
           (detectPatterns (map Candle.close ohlcv) (map Candle.high ohlcv)
              (map Candle.low ohlcv)).
Proof.
  unfold evaluate, indicatorsOf. destruct (len ohlcv <? 50)%Z; [reflexivity|].
  cbv zeta. cbn [MarketSentiment.score]. reflexivity.
Qed.


End Engine.

(* ================================================================== *)
(** ** Instances *)
(* ================================================================== *)

Local Open Scope list_scope.




Lemma insufficient_data_short_circuit_witness :
  evaluate ReferenceHost.Math_sqrt ReferenceHost.toFixed 1700000000000 "BTC" three_candles
  = MarketSentiment.mk "BTC" Overall.NEUTRAL (Num 0) [] []
      "Insufficient data for analysis" 1700000000000.
Proof.
  refine (proj1 (insufficient_data_short_circuit _ _ _ _ _ _)). simpl. lia.
Defined.

Lemma score_within_bounds_witness :
  exists base final : Q,
    calculateSentimentScore six_buys = Num base
    /\ base == Qclamp (Qsum (map signal_points six_buys))
    /\ finalScore (Num base) three_bulls = Num final
    /\ final == Qclamp (base + Qsum (map pattern_points three_bulls))
    /\ -100 <= final <= 100.
Proof.
  apply (proj1 (score_within_bounds ReferenceHost.Math_sqrt ReferenceHost.toFixed)).
  repeat constructor.
Defined.

Lemma golden_cross_rule_witness :
  named "Golden Cross" (detectPatterns ReferenceHost.toFixed up200 up200 up200)
  = [Pattern.mk "Golden Cross" bullish (Num 85)
       "50 SMA crossed above 200 SMA - major bullish signal"].
Proof.
  apply (proj2 (golden_cross_rule ReferenceHost.toFixed up200 up200 up200)).
  repeat split; vm_compute; congruence.
Defined.



Lemma funding_signal_strict_band_witness :
  about "Funding Rate" (generateSignals ReferenceHost.toFixed (funding_at (Num (-0.01)))) = []
  /\ exists e,
       about "Funding Rate" (generateSignals ReferenceHost.toFixed (funding_at (Num (-0.011))))
       = [e] /\ Signal.signal e = BUY.
Proof.
  split.
  - apply (funding_signal_strict_band ReferenceHost.toFixed (funding_at (Num (-0.01)))).
    reflexivity.
  - apply (funding_signal_strict_band ReferenceHost.toFixed (funding_at (Num (-0.011)))).
    reflexivity.
Defined.

(** C8, as stated, fails on two calls a little more than a minute apart:
    the stored entry has expired, the second call evaluates the same series
    again and stamps its result with the later clock reading. *)
Lemma later_call_counterexample :
  ~ (fst (getMarketSentiment ReferenceHost.Math_sqrt ReferenceHost.toFixed
            ∅ 0 0 0 three_candles "BTC")
     = fst (getMarketSentiment ReferenceHost.Math_sqrt ReferenceHost.toFixed
              (snd (getMarketSentiment ReferenceHost.Math_sqrt ReferenceHost.toFixed
                      ∅ 0 0 0 three_candles "BTC"))
              60001 60001 60001 three_candles "BTC")).
Proof.
  intros H. apply (f_equal MarketSentiment.timestamp) in H.
  vm_compute in H. discriminate.
Qed.

Lemma evaluation_deterministic_up_to_clock_witness :
  getMarketSentiment ReferenceHost.Math_sqrt ReferenceHost.toFixed
    (snd (getMarketSentiment ReferenceHost.Math_sqrt ReferenceHost.toFixed
            ∅ 0 0 0 three_candles "BTC"))
    60000 60000 60000 [] "BTC"
  = getMarketSentiment ReferenceHost.Math_sqrt ReferenceHost.toFixed
      ∅ 0 0 0 three_candles "BTC".
Proof.
  destruct (getMarketSentiment ReferenceHost.Math_sqrt ReferenceHost.toFixed
              ∅ 0 0 0 three_candles "BTC") as [r c] eqn:E.
  cbn [snd].
  refine (proj2 (proj2 (proj2 (evaluation_deterministic_up_to_clock
            ReferenceHost.Math_sqrt ReferenceHost.toFixed "BTC" three_candles))
            ∅ 0%Z 0%Z 0%Z 60000%Z 60000%Z 60000%Z [] r c _ _ E)).
  - reflexivity.
  - lia.
Defined.


(** The reference square root answers a finite non-negative value on every
    finite non-negative argument. *)
Lemma reference_sqrt_nonneg (q : Q) :
  0 <= q -> exists r : Q, ReferenceHost.Math_sqrt (Num q) = Num r /\ 0 <= r.
Proof.
  intros Hq. unfold ReferenceHost.Math_sqrt.
  destruct (Qlt_bool q 0) eqn:E.
  - apply Qlt_bool_iff in E. lra.
  - eexists. split; [reflexivity|]. rewrite Qred_correct.
    unfold Qle. cbn [Qnum Qden]. rewrite Z.mul_1_r. apply Z.sqrt_nonneg.
Qed.

Lemma cache_round_trip_witness :
  cache_get (cache_set (∅ : MemoryCache nat) 1000 "k" 7%nat 60) 61000 "k"
  = (Some 7%nat, cache_set ∅ 1000 "k" 7%nat 60).
Proof. apply (proj1 (cache_round_trip ∅ 1000 61000 "k" 7%nat 60)). lia. Defined.

Lemma cache_keys_independent_witness :
  fst (cache_get (cache_delete (cache_set (∅ : MemoryCache nat) 0 "a" 1%nat 60) "b") 10 "a")
  = fst (cache_get (cache_set ∅ 0 "a" 1%nat 60) 10 "a").
Proof.
  refine (proj1 (proj2 (cache_keys_independent _ "b" "a" 10 10 _))). discriminate.
Defined.

Lemma withCache_live_or_fresh_witness :
  withCache (∅ : MemoryCache nat) 0 5 "k" 60 (fun _ => 7%nat)
  = (7%nat, <[ "k" := {| data := 7%nat; expiresAt := 60005 |} ]> ∅).
Proof.
  apply (proj2 (withCache_live_or_fresh ∅ 0 5 "k" 60 (fun _ => 7%nat))).
  left. reflexivity.
Defined.

Lemma getMarketSentiment_sound_witness :
  let (result, cache') :=
    getMarketSentiment ReferenceHost.Math_sqrt ReferenceHost.toFixed
      ∅ 0 0 0 three_candles "BTC" in
  MarketSentiment.symbol result = "BTC"%string
  /\ bounded_score result
  /\ sound cache'.
Proof.
  apply (getMarketSentiment_sound ReferenceHost.Math_sqrt ReferenceHost.toFixed
           ∅ 0 0 0 three_candles "BTC").
  apply sound_empty.
Defined.

Lemma getMarketSentiment_commute_witness :
  fst (callFor ReferenceHost.Math_sqrt ReferenceHost.toFixed
         (snd (callFor ReferenceHost.Math_sqrt ReferenceHost.toFixed ∅ failing_world "BTC"))
         failing_world "ETH")
  = fst (callFor ReferenceHost.Math_sqrt ReferenceHost.toFixed ∅ failing_world "ETH")
  /\ fst (callFor ReferenceHost.Math_sqrt ReferenceHost.toFixed
            (snd (callFor ReferenceHost.Math_sqrt ReferenceHost.toFixed ∅ failing_world "ETH"))
            failing_world "BTC")
     = fst (callFor ReferenceHost.Math_sqrt ReferenceHost.toFixed ∅ failing_world "BTC")
  /\ snd (callFor ReferenceHost.Math_sqrt ReferenceHost.toFixed
            (snd (callFor ReferenceHost.Math_sqrt ReferenceHost.toFixed ∅ failing_world "BTC"))
            failing_world "ETH")
     = snd (callFor ReferenceHost.Math_sqrt ReferenceHost.toFixed
              (snd (callFor ReferenceHost.Math_sqrt ReferenceHost.toFixed ∅ failing_world "ETH"))
              failing_world "BTC").
Proof.
  apply (getMarketSentiment_commute ReferenceHost.Math_sqrt ReferenceHost.toFixed
           ∅ failing_world "BTC" "ETH").
  discriminate.
Defined.

Lemma getAllSentiments_sound_witness :
  map MarketSentiment.symbol
    (fst (getAllSentiments ReferenceHost.Math_sqrt ReferenceHost.toFixed ∅ failing_world))
  = ["BTC"; "ETH"; "HYPE"]%string
  /\ Forall bounded_score
       (fst (getAllSentiments ReferenceHost.Math_sqrt ReferenceHost.toFixed ∅ failing_world))
  /\ sound (snd (getAllSentiments ReferenceHost.Math_sqrt ReferenceHost.toFixed
                   ∅ failing_world)).
Proof.
  apply (getAllSentiments_sound ReferenceHost.Math_sqrt ReferenceHost.toFixed ∅ failing_world).
  apply sound_empty.
Defined.

Lemma GET_average_bounded_witness :
  let response := fst (GET ReferenceHost.Math_sqrt ReferenceHost.toFixed ∅ failing_world 0) in
  SentimentResponse.success response = true
  /\ map MarketSentiment.symbol (SentimentResponse.assets response)
     = ["BTC"; "ETH"; "HYPE"]%string
  /\ exists a : Q,
       SentimentResponse.avgScore response = Num a
       /\ -100 <= a <= 100
       /\ (SentimentResponse.marketBias response = "BULLISH"%string <-> 40 <= a)
       /\ (SentimentResponse.marketBias response = "BEARISH"%string <-> a <= -40)
       /\ (SentimentResponse.marketBias response = "NEUTRAL"%string <-> -40 < a < 40).
Proof.
  apply (GET_average_bounded ReferenceHost.Math_sqrt ReferenceHost.toFixed ∅ failing_world 0).
  apply sound_empty.
Defined.

Lemma failed_fetch_reported_neutral_witness :
  SentimentResponse.avgScore
    (fst (GET ReferenceHost.Math_sqrt ReferenceHost.toFixed ∅ failing_world 0)) = Num 0
  /\ SentimentResponse.assets
       (fst (GET ReferenceHost.Math_sqrt ReferenceHost.toFixed
               (snd (GET ReferenceHost.Math_sqrt ReferenceHost.toFixed ∅ failing_world 0))
               later_world 1000))
     = [insufficient "BTC" 0; insufficient "ETH" 0; insufficient "HYPE" 0].
Proof.
  assert (H : forall symbol, In symbol ["BTC"; "ETH"; "HYPE"]%string ->
            fst (cache_get (∅ : MemoryCache MarketSentiment.t)
                   (Reading.atGet (failing_world symbol)) ("sentiment:" ++ symbol)%string)
            = None
            /\ (length (Reading.candles (failing_world symbol)) < 50)%nat).
  { intros symbol _. split; [reflexivity | simpl; lia]. }
  pose proof (failed_fetch_reported_neutral ReferenceHost.Math_sqrt ReferenceHost.toFixed
                ∅ failing_world 0 H) as (_ & _ & Havg & _ & Hnext).
  split; [exact Havg|].
  apply (Hnext later_world 1000%Z). intros symbol _. simpl. lia.
Defined.


Lemma ema_append_witness :
  calculateEMA (map Num [1; 2; 3] ++ [Num 4]) 2
  = ((Num 4 - calculateEMA (map Num [1; 2; 3]) 2) * (Num 2 / Num (inject_Z 2 + 1))
     + calculateEMA (map Num [1; 2; 3]) 2)%js.
Proof.
  apply (ema_append (map Num [1; 2; 3]) (Num 4) 2). unfold len. simpl. lia.
Defined.






Lemma evaluate_signals_shape_witness :
  exists volume,
    map Signal.indicator
      (MarketSentiment.signals
         (evaluate ReferenceHost.Math_sqrt ReferenceHost.toFixed 0 "BTC" idle_candles))
    = ["RSI (14)"; "MACD"; "MA Alignment"; "Bollinger Bands"]%string ++ volume
    /\ (volume = [] \/ volume = ["Volume"%string]).
Proof.
  apply (proj1 (proj2 (proj2 (evaluate_signals_shape
           ReferenceHost.Math_sqrt ReferenceHost.toFixed 0 "BTC" idle_candles)))).
  unfold len. simpl. lia.
Defined.

Lemma zero_volume_no_signal_witness :
  TechnicalIndicators.volumeRatio (indicatorsOf ReferenceHost.Math_sqrt "BTC" idle_candles) = NaN
  /\ about "Volume"
       (MarketSentiment.signals
          (evaluate ReferenceHost.Math_sqrt ReferenceHost.toFixed 0 "BTC" idle_candles))
     = [].
Proof.
  apply (zero_volume_no_signal ReferenceHost.Math_sqrt ReferenceHost.toFixed 0 "BTC" idle_candles).
  - unfold len. simpl. lia.
  - unfold last_elements. simpl. repeat constructor.
Defined.

